(** * userfastboot: the OSIP image table and the autoboot arbitration

    A shallow embedding of [update_osip.c] and [droidboot.c].

    [update_osip.c] keeps the OS image profile (OSIP) at the start of the
    eMMC device up to date when a stitched image is flashed;
    [droidboot.c] starts the autoboot countdown and the input listener that
    cancels it.  C integers are modelled as [Z] with the wrap-around of their
    type written out (ILP32: [int], [size_t] and [uint32_t] are 32 bits wide,
    as on the x86 Android target the code was written for).  System calls are
    answered by the environment recorded in the state. *)

From Stdlib Require Import ZArith Lia Ascii String.
From stdpp Require Import base list strings gmap.

Local Open Scope Z_scope.

(** ** C integer types *)

Definition u32 (z : Z) : Z := z mod 2 ^ 32.

Definition s32 (z : Z) : Z :=
  let r := z mod 2 ^ 32 in if r <? 2 ^ 31 then r else r - 2 ^ 32.

Definition INT_MIN : Z := - 2 ^ 31.
Definition INT_MAX : Z := 2 ^ 31 - 1.

(** The levels of [dprintf] (debug.h). *)
Inductive level := ALWAYS | CRITICAL | INFO | SPEW.

(** ** update_osip.c *)

Module UpdateOsip.

(** *** Constants of the file *)

Definition BACKUP_LOC : Z := 0xE0.
Definition OSIP_PREAMBLE : Z := 0x20.
Definition OSIP_SIG : Z := 0x24534f24.
Definition OSII_TOTAL : Z := 7.
Definition DUMP_OSIP : Z := 1.
Definition NOT_DUMP : Z := 0.
Definition R_BCK : Z := 1.
Definition R_START : Z := 0.
Definition MMC_DEV_POS : string := "/dev/block/mmcblk0".
Definition MMC_PAGES_PER_BLOCK : Z := 1.
Definition MMC_PAGE_SIZE : string :=
  "/sys/devices/pci0000:00/0000:00:01.0/mmc_host/mmc0/mmc0:0001/erase_size".
Definition KBYTES : Z := 1024.
Definition STITCHED_IMAGE_PAGE_SIZE : Z := 512.
Definition STITCHED_IMAGE_BLOCK_SIZE : Z := 512.

(** The four bytes of the signature, read as a little-endian 32-bit word. *)
Definition le32 (b0 b1 b2 b3 : Z) : Z :=
  Z.lor b0 (Z.lor (Z.shiftl b1 8) (Z.lor (Z.shiftl b2 16) (Z.shiftl b3 24))).

(** *** Data model *)

(** Modelled from the spec: [struct OSII] is declared in update_osip.h, which
    is not among the sources.  The fields are those the spec lists for an
    image descriptor, under the names [write_stitch_image] uses for them;
    the reserved padding of the record carries no information here. *)
Record OSII := mkOSII {
  os_rev_minor : Z;
  os_rev_major : Z;
  logical_start_block : Z;
  ddr_load_address : Z;
  entery_point : Z;
  size_of_os_image : Z;
  attribute : Z
}.

(** Modelled from the spec: [struct OSIP_header] is declared in update_osip.h,
    which is not among the sources: a signature, the count of populated
    images and the array [desc] of [OSII_TOTAL] descriptors. *)
Record OSIP_header := mkOSIP {
  sig : Z;
  num_images : Z;
  desc : list OSII
}.

Definition OSII_zero : OSII := mkOSII 0 0 0 0 0 0 0.

Definition with_logical_start_block (v : Z) (o : OSII) : OSII :=
  mkOSII (os_rev_minor o) (os_rev_major o) v (ddr_load_address o)
         (entery_point o) (size_of_os_image o) (attribute o).

Definition with_size_of_os_image (v : Z) (o : OSII) : OSII :=
  mkOSII (os_rev_minor o) (os_rev_major o) (logical_start_block o)
         (ddr_load_address o) (entery_point o) v (attribute o).

Definition with_num_images (v : Z) (h : OSIP_header) : OSIP_header :=
  mkOSIP (sig h) v (desc h).

Definition with_desc (d : list OSII) (h : OSIP_header) : OSIP_header :=
  mkOSIP (sig h) (num_images h) d.

(** [osip.desc[i]]: an index outside the array is out of bounds. *)
Definition desc_at (h : OSIP_header) (i : Z) : option OSII :=
  if (0 <=? i) && (i <? OSII_TOTAL) then desc h !! Z.to_nat i else None.

(** Modelled from the spec: the stitched update blob that [data] points to.
    Its layout belongs to update_osip.h and [crack_stitched_image], neither
    among the sources: the leading block of STITCHED_IMAGE_BLOCK_SIZE bytes
    holds the descriptor ([None] when the block is not one a descriptor can
    be taken from), the bytes after it are the payload. *)
Record stitched := mkStitched {
  leading_block : option OSII;
  following : list Byte.byte
}.

(** *** The environment *)

(** What the code prints and calls: of each message the format string as
    written, up to its first line break, arguments left out. *)
Inductive event :=
| Dprintf (l : level) (fmt : string)
| Printf (fmt : string)
| Dperror (what : string)
| Dump (h : OSIP_header)             (* dump_osip_header *)
| Submit (h : OSIP_header).          (* write_OSIP entered with this table *)

(** A raw write to the device: where it starts and the arguments of
    [write]. *)
Record raw_write := mkRawWrite {
  at_offset : Z;                      (* the file offset the write starts at *)
  source : list Byte.byte;            (* the buffer handed to write *)
  count : Z                           (* the byte count handed to write *)
}.

(** The bytes a raw write put on the device. *)
Definition bytes_written (r : raw_write) : list Byte.byte :=
  take (Z.to_nat (count r)) (source r).

(** **** The record on the device

    Modelled from the spec: where the fields of [struct OSIP_header] lie is
    fixed by update_osip.h, which is not among the sources.  The signature
    takes the first four bytes, little-endian; the header before the
    descriptors takes OSIP_PREAMBLE bytes, with the one-byte count of images
    at offset 9; each descriptor takes 24 bytes: the two 16-bit revisions,
    the 32-bit start block, load address, entry point and size, the
    attribute byte and three reserved bytes. *)
Definition sizeof_OSII : Z := 24.

Definition sizeof_OSIP_header : Z := OSIP_PREAMBLE + OSII_TOTAL * sizeof_OSII.

(** Does the raw write reach into the record that starts at [base]? *)
Definition hits (base : Z) (r : raw_write) : bool :=
  (at_offset r <? base + sizeof_OSIP_header) && (base <? at_offset r + count r).

(** Does the buffer hold the [count] bytes the write asks for? *)
Definition in_buffer (r : raw_write) : bool :=
  count r <=? Z.of_nat (length (source r)).

(** The byte the raw write puts at device offset [pos], where it reaches
    [pos]. *)
Definition written_byte (r : raw_write) (pos : Z) : option Byte.byte :=
  if (at_offset r <=? pos) && (pos <? at_offset r + count r)
  then source r !! Z.to_nat (pos - at_offset r)
  else None.

(** The bytes of a little-endian field at device offset [pos] that held
    [v], as they read after the raw write. *)
Fixpoint field_bytes (r : raw_write) (pos : Z) (width : nat) (v : Z) : Z :=
  match width with
  | O => 0
  | S n =>
      (match written_byte r pos with
       | Some b => Z.of_N (Byte.to_N b)
       | None => v mod 256
       end) + 256 * field_bytes r (pos + 1) n (v / 256)
  end.

(** The field of [width] bytes at device offset [pos] after the raw write:
    as it was when the write does not reach it. *)
Definition field_after (r : raw_write) (pos : Z) (width : nat) (v : Z) : Z :=
  if (at_offset r <? pos + Z.of_nat width) && (pos <? at_offset r + count r)
  then field_bytes r pos width v
  else v.

Definition OSII_after (r : raw_write) (base : Z) (o : OSII) : OSII :=
  mkOSII (field_after r base 2 (os_rev_minor o))
         (field_after r (base + 2) 2 (os_rev_major o))
         (field_after r (base + 4) 4 (logical_start_block o))
         (field_after r (base + 8) 4 (ddr_load_address o))
         (field_after r (base + 12) 4 (entery_point o))
         (field_after r (base + 16) 4 (size_of_os_image o))
         (field_after r (base + 20) 1 (attribute o)).

Definition OSIP_after (r : raw_write) (base : Z) (h : OSIP_header)
  : OSIP_header :=
  mkOSIP (field_after r base 4 (sig h))
         (field_after r (base + 9) 1 (num_images h))
         (imap (fun i o =>
                  OSII_after r (base + OSIP_PREAMBLE + sizeof_OSII * Z.of_nat i) o)
               (desc h)).

(** What the record at [base] reads as once the raw write has gone through:
    as before when the write stays clear of it. *)
Definition lay_over (base : Z) (r : raw_write) (h : OSIP_header)
  : OSIP_header :=
  if hits base r then OSIP_after r base h else h.

(** The state the code runs against.  [erase_size] is the content of the
    attribute file MMC_PAGE_SIZE.  [mmc_osip] is what a read of
    [sizeof (struct OSIP_header)] bytes at offset 0 of MMC_DEV_POS leaves in a
    zeroed record, [mmc_backup] the same at BACKUP_LOC; [mmc_payload] lists
    the raw writes of payload that went through, in order.  It is one
    device: a payload write that reaches into a record changes what the
    record reads as.  [faults] answers the system calls whose result the code
    looks at (open, read, write), one entry per call in order: [true] makes
    the call fail; when the list is used up calls succeed.  A transfer
    either fails or is complete. *)
Record world := mkWorld {
  erase_size : string;
  mmc_osip : OSIP_header;
  mmc_backup : OSIP_header;
  mmc_payload : list raw_write;
  faults : list bool;
  trace : list event
}.

(** Results: a value and the state after, or undefined behaviour of the C
    program (out-of-bounds access, division by zero, unterminated string). *)
Inductive res (A : Type) :=
| Ret (a : A) (w : world)
| Undef.
Arguments Ret {A} a w.
Arguments Undef {A}.

Definition M (A : Type) : Type := world -> res A.

Definition ret {A} (a : A) : M A := fun w => Ret a w.

Definition bind {A B} (m : M A) (k : A -> M B) : M B :=
  fun w => match m w with
           | Ret a w' => k a w'
           | Undef => Undef
           end.

Definition undef {A} : M A := fun _ => Undef.

Notation "x <- m ;; k" := (bind m (fun x => k))
  (at level 100, m at next level, right associativity).
Notation "m ;;; k" := (bind m (fun _ => k))
  (at level 100, right associativity).

Definition emit (e : event) : M unit := fun w =>
  Ret tt (mkWorld (erase_size w) (mmc_osip w) (mmc_backup w) (mmc_payload w)
                  (faults w) (trace w ++ [e])).

(** The next system call: does it fail? *)
Definition syscall : M bool := fun w =>
  match faults w with
  | [] => Ret false w
  | f :: fs =>
      Ret f (mkWorld (erase_size w) (mmc_osip w) (mmc_backup w)
                     (mmc_payload w) fs (trace w))
  end.

Definition get_world : M world := fun w => Ret w w.

Definition store_osip (h : OSIP_header) : M unit := fun w =>
  Ret tt (mkWorld (erase_size w) h (mmc_backup w) (mmc_payload w)
                  (faults w) (trace w)).

(** The payload write goes through.  Where it reaches into a record with a
    count that runs past the end of the buffer, [write] reads out of bounds
    and what it puts there is not the program's to say. *)
Definition store_payload (r : raw_write) : M unit := fun w =>
  if (hits 0 r || hits BACKUP_LOC r) && negb (in_buffer r) then Undef
  else Ret tt (mkWorld (erase_size w) (lay_over 0 r (mmc_osip w))
                       (lay_over BACKUP_LOC r (mmc_backup w))
                       (mmc_payload w ++ [r]) (faults w) (trace w)).

(** The file offset after [lseek (fd, offset, SEEK_SET)] on a descriptor
    just opened, for an unsigned 32-bit [offset]: off_t is a signed 32-bit
    type, an offset of 2^31 or more arrives negative, lseek fails and the
    file offset stays 0.  The code does not look at the result. *)
Definition lseek_set (offset : Z) : Z :=
  if s32 offset <? 0 then 0 else s32 offset.

(** *** sscanf (buf, "%d", &v) *)

Definition isspace (c : ascii) : bool :=
  let n := Z.of_nat (nat_of_ascii c) in (n =? 32) || ((9 <=? n) && (n <=? 13)).

Definition isdigit (c : ascii) : bool :=
  let n := Z.of_nat (nat_of_ascii c) in (48 <=? n) && (n <=? 57).

Definition digit_val (c : ascii) : Z := Z.of_nat (nat_of_ascii c) - 48.

Fixpoint skip_space (s : string) : string :=
  match s with
  | String c r => if isspace c then skip_space r else s
  | EmptyString => s
  end.

(** The decimal value of the leading digits of [s], continuing [acc]. *)
Fixpoint scan_digits (s : string) (acc : Z) : Z :=
  match s with
  | String c r => if isdigit c then scan_digits r (10 * acc + digit_val c) else acc
  | EmptyString => acc
  end.

Definition starts_with_digit (s : string) : bool :=
  match s with
  | String c _ => isdigit c
  | EmptyString => false
  end.

Inductive scanned := Converted (v : Z) | NoMatch | Overflow.

Definition in_int (v : Z) : scanned :=
  if (INT_MIN <=? v) && (v <=? INT_MAX) then Converted v else Overflow.

(** One [%d] conversion: white space, an optional sign, at least one digit.
    A value that does not fit an [int] is undefined behaviour. *)
Definition sscanf_d (s : string) : scanned :=
  match skip_space s with
  | String "-"%char r =>
      if starts_with_digit r then in_int (- scan_digits r 0) else NoMatch
  | String "+"%char r =>
      if starts_with_digit r then in_int (scan_digits r 0) else NoMatch
  | r => if starts_with_digit r then in_int (scan_digits r 0) else NoMatch
  end.

Definition is_nul (c : ascii) : bool := (nat_of_ascii c =? 0)%nat.

(** The C string held in a buffer: the bytes before the first NUL. *)
Fixpoint c_str (s : string) : string :=
  match s with
  | String c r => if is_nul c then EmptyString else String c (c_str r)
  | EmptyString => EmptyString
  end.

Fixpoint has_nul (s : string) : bool :=
  match s with
  | String c r => is_nul c || has_nul r
  | EmptyString => false
  end.

(** [buf] after [memset (buf, 0, 16)] and [read (fd, buf, 16)] of a file
    holding [content]: the first 16 bytes; it is a terminated string when
    fewer than 16 bytes were read or one of them is NUL. *)
Definition read_buf16 (content : string) : option string :=
  let buf := substring 0 16 content in
  if (String.length buf <? 16)%nat || has_nul buf then Some (c_str buf) else None.

(** *** The functions of the file *)

Definition get_page_size : M Z :=
  f <- syscall ;;                               (* open (MMC_PAGE_SIZE, O_RDONLY) *)
  if f : bool then emit (Dperror "open") ;;; ret (-1) else
  f <- syscall ;;                               (* read (fd, buf, 16) *)
  if f : bool then emit (Dperror "read") ;;; ret (-1) else
  w <- get_world ;;
  match read_buf16 (erase_size w) with
  | None => undef                               (* "%s" of an unterminated buf *)
  | Some buf =>
      emit (Dprintf INFO "page size %s") ;;;
      match sscanf_d buf with
      | Overflow => undef
      | NoMatch => emit (Dperror "sscanf") ;;; ret (-1)
      | Converted mmc_page_size => ret (Z.quot mmc_page_size KBYTES)
      end
  end.

Definition get_block_size : M Z :=
  mmc_page_size <- get_page_size ;;
  ret (s32 (mmc_page_size * MMC_PAGES_PER_BLOCK)).

Definition read_OSIP_loc (location dump : Z) : M (Z * OSIP_header) :=
  (if location =? 0
   then emit (Dprintf INFO "**************into read_OSIP*********************")
   else emit (Printf "==============into read_OSIP from backup location===="))
  ;;;
  let zeroed := mkOSIP 0 0 (replicate (Z.to_nat OSII_TOTAL) OSII_zero) in
  f <- syscall ;;                               (* open (MMC_DEV_POS, O_RDONLY) *)
  if f : bool then ret (-1, zeroed) else
  f <- syscall ;;                               (* read (fd, osip, sizeof osip) *)
  if f : bool then emit (Dprintf INFO "read of osip failed") ;;; ret (-1, zeroed) else
  w <- get_world ;;
  let osip := if location =? 0 then mmc_osip w else mmc_backup w in
  (if negb (sig osip =? OSIP_SIG)
   then emit (Printf "Invalid OSIP header detected!")
   else ret tt) ;;;
  (if negb (dump =? 0) && (sig osip =? OSIP_SIG)
   then emit (Dump osip) ;;;
        if negb (location =? 0)
        then emit (Dprintf INFO "read of osip  from BACKUP_LOC works")
        else emit (Dprintf INFO "read of osip works")
   else ret tt) ;;;
  ret (1, osip).

(** Modelled from the spec: [crack_stitched_image] is not among the sources.
    It "extracts descriptor and payload from a combined update blob": the
    descriptor of the leading block and the bytes after that block, or a
    failure. *)
Definition crack_stitched_image (data : stitched) : option (OSII * list Byte.byte) :=
  match leading_block data with
  | Some osii => Some (osii, following data)
  | None => None
  end.

(** Modelled from the spec: [write_OSIP] is not among the sources.  It
    "persists the updated table via encode + raw write to the primary
    location": the device is opened, the table written at offset 0; a failed
    open or write is reported to the caller and leaves the device as it was. *)
Definition write_OSIP (osip : OSIP_header) : M Z :=
  emit (Submit osip) ;;;
  f <- syscall ;;                               (* open (MMC_DEV_POS, O_RDWR) *)
  if f : bool then ret (-1) else
  f <- syscall ;;                               (* write (fd, osip, sizeof osip) *)
  if f : bool then ret (-1) else
  store_osip osip ;;; ret 0.

(** Lines 131 to 137: the descriptor as stored and the table as spliced.
    The product is a 32-bit unsigned one and [page_size] is converted to
    unsigned for the division.  [osii] points into the caller's buffer, so
    the two stores also change [data]; nothing reads it afterwards. *)
Definition stitch (osip : OSIP_header) (osii old : OSII)
    (update_number page_size : Z) : OSII * OSIP_header :=
  let osip := with_num_images 1 osip in
  let osii := with_logical_start_block (logical_start_block old) osii in
  let osii :=
    with_size_of_os_image
      (u32 (u32 (size_of_os_image osii * STITCHED_IMAGE_PAGE_SIZE)
            / u32 page_size + 1)) osii in
  (osii, with_desc (<[Z.to_nat update_number := osii]> (desc osip)) osip).

(** [size] is a size_t, the length of the blob as transferred;
    [update_number] an int. *)
Definition write_stitch_image (data : stitched) (size : Z) (update_number : Z)
  : M Z :=
  block_size <- get_block_size ;;
  page_size <- get_page_size ;;
  emit (Dprintf INFO "now into write_stitch_image") ;;;
  if block_size <? 0 then
    emit (Dprintf CRITICAL "block size wrong") ;;; ret (-1)
  else
  match crack_stitched_image data with
  | None => emit (Dprintf CRITICAL "crack_stitched_image fails") ;;; ret (-1)
  | Some (osii, blob) =>
  if negb (u32 (size_of_os_image osii * STITCHED_IMAGE_PAGE_SIZE)
           =? u32 (size - STITCHED_IMAGE_BLOCK_SIZE)) then
    emit (Dprintf CRITICAL "data format is not correct! ") ;;; ret (-1)
  else
  r <- read_OSIP_loc R_START NOT_DUMP ;;
  if fst r <? 0 then
    emit (Dprintf CRITICAL "read_OSIP fails") ;;; ret (-1)
  else
  match desc_at (snd r) update_number with
  | None => undef                               (* osip.desc[update_number] *)
  | Some old =>
  if u32 page_size =? 0 then undef else         (* division by zero *)
  let '(osii, osip) := stitch (snd r) osii old update_number page_size in
  emit (Dprintf SPEW "os_rev_major=0x%x,os_rev_minor=0x%x,ddr_load_address=0x%x") ;;;
  emit (Dprintf SPEW "entry_point=0x%x,sizeof_osimage=0x%x,attribute=0x%x") ;;;
  _ <- write_OSIP osip ;;
  f <- syscall ;;                               (* open (MMC_DEV_POS, O_RDWR) *)
  if f : bool then
    emit (Dprintf CRITICAL "fail open %s") ;;; ret (-1)
  else
  (* lseek (fd, osii->logical_start_block * block_size, SEEK_SET) *)
  let off := lseek_set (u32 (logical_start_block osii * block_size)) in
  let count := u32 (size - STITCHED_IMAGE_BLOCK_SIZE) in
  f <- syscall ;;                               (* write (fd, blob, count) *)
  written <- (if f : bool then ret (-1)
              else store_payload (mkRawWrite off blob count) ;;;
                   ret (s32 count)) ;;
  if written <? s32 count then
    emit (Dprintf INFO "fail write of blob") ;;; ret (-1)
  else ret 0
  end
  end.

(** *** Observations *)

(** The tables [write_OSIP] was entered with, in order. *)
Fixpoint submitted_in (tr : list event) : list OSIP_header :=
  match tr with
  | Submit h :: r => h :: submitted_in r
  | _ :: r => submitted_in r
  | [] => []
  end.

Definition submitted (w : world) : list OSIP_header := submitted_in (trace w).

(** Nothing on the device or in the attribute file changed. *)
Definition same_device (w w' : world) : Prop :=
  erase_size w' = erase_size w /\ mmc_osip w' = mmc_osip w /\
  mmc_backup w' = mmc_backup w /\ mmc_payload w' = mmc_payload w.

(** The device is as it was and no table was submitted. *)
Definition quiet (w w' : world) : Prop :=
  same_device w w' /\ submitted w' = submitted w.

(** The next [n] system calls succeed. *)
Definition calls_succeed (n : nat) (w : world) : bool :=
  forallb negb (take n (faults w)).

(** No system call fails from here on. *)
Definition no_fault (w : world) : bool := forallb negb (faults w).

(** The payload write of [write_stitch_image] for a slot whose descriptor on
    the device is [old]. *)
Definition payload_write (old : OSII) (block_size : Z) (data : stitched)
    (size : Z) : raw_write :=
  mkRawWrite (lseek_set (u32 (logical_start_block old * block_size)))
             (following data) (u32 (size - STITCHED_IMAGE_BLOCK_SIZE)).

Definition after {A} (r : res A) (w : world) : world :=
  match r with
  | Ret _ w' => w'
  | Undef => w
  end.

(** *** Sample states *)

Definition newline : string := String (ascii_of_nat 10) EmptyString.

Definition sample_table : OSIP_header :=
  mkOSIP OSIP_SIG 3
    (map (fun i => mkOSII 0 1 (1000 * i) 0x1100000 0x1101000 50 0)
         [1; 2; 3; 4; 5; 6; 7]).

(** The erase size attribute reads "2048\n"; no system call fails. *)
Definition sample_world : world :=
  mkWorld ("2048" ++ newline) sample_table sample_table [] [] [].

(** A device without a table: all zero. *)
Definition blank_world : world :=
  let zero := mkOSIP 0 0 (replicate 7 OSII_zero) in
  mkWorld ("2048" ++ newline) zero zero [] [] [].

(** A device with one image: slot 0 is in use, the other slots are zero. *)
Definition one_image_table : OSIP_header :=
  mkOSIP OSIP_SIG 1
    (mkOSII 0 1 1000 0x1100000 0x1101000 50 0 :: replicate 6 OSII_zero).

Definition one_image_world : world :=
  mkWorld ("2048" ++ newline) one_image_table one_image_table [] [] [].

(** The eighth system call of [write_stitch_image], the write of the
    table, fails. *)
Definition world_table_write_fails : world :=
  mkWorld ("2048" ++ newline) sample_table sample_table []
          [false; false; false; false; false; false; false; true] [].

Definition declares (pages : Z) : OSII := mkOSII 7 8 424242 17 18 pages 15.

Definition image_1_page : stitched :=
  mkStitched (Some (declares 1)) (replicate 512 Byte.x2a).

(** 0x800001 pages declared, 512 bytes of payload. *)
Definition image_wrapped : stitched :=
  mkStitched (Some (declares 0x800001)) (replicate 512 Byte.x2a).

Definition sample_after (data : stitched) (size k : Z) (w : world) : world :=
  after (write_stitch_image data size k w) w.

(** *** Decimal notation, as the attribute file holds the erase size *)

Definition digit_char (d : Z) : ascii := ascii_of_nat (Z.to_nat (48 + d)).

Fixpoint decimal (ds : list Z) : string :=
  match ds with
  | [] => EmptyString
  | d :: r => String (digit_char d) (decimal r)
  end.

Definition decimal_value (ds : list Z) : Z :=
  fold_left (fun acc d => 10 * acc + d) ds 0.

(** The tables [dump_osip_header] was given, in order. *)
Fixpoint dumped_in (tr : list event) : list OSIP_header :=
  match tr with
  | Dump h :: r => h :: dumped_in r
  | _ :: r => dumped_in r
  | [] => []
  end.

Definition dumped (w : world) : list OSIP_header := dumped_in (trace w).

(** The record [read_OSIP_loc] leaves when it fails: as memset left it. *)
Definition zeroed_header : OSIP_header :=
  mkOSIP 0 0 (replicate (Z.to_nat OSII_TOTAL) OSII_zero).

(** The second query of the page size fails at its open. *)
Definition world_page_query_fails : world :=
  mkWorld ("2048" ++ newline) sample_table sample_table []
          [false; false; true] [].

(** The erase size attribute reads "512\n": less than a kilobyte. *)
Definition world_small_erase : world :=
  mkWorld ("512" ++ newline) sample_table sample_table [] [] [].

End UpdateOsip.

(** ** droidboot.c

    The flag [autoboot_enabled] and the functions that read or clear it:
    [autoboot_thread], [input_listener_thread] with [open_event_node],
    [disable_autoboot] and [start_default_kernel].  [main] starts the two
    threads and the fastboot service and never touches the flag; the other
    threads appear in a function's run as what they do to the flag while the
    function sleeps. *)

Module Droidboot.

(** *** Constants of <linux/input.h> *)

Definition EV_KEY : Z := 0x01.
Definition EV_REL : Z := 0x02.
Definition EV_ABS : Z := 0x03.
Definition KEY_DOT : Z := 52.

(** *** State *)

Inductive event :=
| Dprintf (l : level) (fmt : string)
| Dperror (what : string)
| Sleep (seconds : Z)
| Call_start_default_kernel.

(** [autoboot_enabled] is the file's flag; [trace] is what the program has
    printed and called so far. *)
Record state := mkState {
  autoboot_enabled : Z;
  trace : list event
}.

Definition emit (e : event) (s : state) : state :=
  mkState (autoboot_enabled s) (trace s ++ [e]).

(** How a function of the program ends. *)
Inductive outcome (A : Type) :=
| Returns (a : A) (s : state)
| Dies (s : state)                    (* die () *)
| Boots (s : state)                   (* kexec_linux took over *)
| Blocks (s : state).                 (* waiting in select for more input *)
Arguments Returns {A} a s.
Arguments Dies {A} s.
Arguments Boots {A} s.
Arguments Blocks {A} s.

Definition state_of {A} (o : outcome A) : state :=
  match o with
  | Returns _ s | Dies s | Boots s | Blocks s => s
  end.

(** Modelled from the spec: [die], of util.c, is not among the sources; it is
    the "process-abort primitive": the process ends there. *)
Definition die {A} (s : state) : outcome A := Dies s.

(** *** disable_autoboot *)

Definition disable_autoboot (s : state) : state :=
  if negb (autoboot_enabled s =? 0)
  then emit (Dprintf INFO "Autoboot disabled.") (mkState 0 (trace s))
  else s.

(** *** start_default_kernel *)

(** The collaborators of [start_default_kernel]: whether [mount_partition]
    yields a mount point, whether each [asprintf] succeeds, and what
    [kexec_linux] returns when it returns at all. *)
Record boot_env := mkBootEnv {
  mount_partition : bool;
  asprintf_kernel : bool;
  asprintf_ramdisk : bool;
  asprintf_cmdline : bool;
  kexec_linux : option Z
}.

Definition start_default_kernel (e : boot_env) (s : state) : outcome unit :=
  let s := emit Call_start_default_kernel s in
  if negb (mount_partition e) then
    Returns tt (emit (Dprintf CRITICAL "Can't mount boot partition!") s)
  else if negb (asprintf_kernel e) then die (emit (Dperror "asprintf") s)
  else if negb (asprintf_ramdisk e) then die (emit (Dperror "asprintf") s)
  else if negb (asprintf_cmdline e) then die (emit (Dperror "asprintf") s)
  else match kexec_linux e with
       | None => Boots s
       | Some r => if negb (r =? 0) then die s else Returns tt s
       end.

(** *** autoboot_thread *)

(** [sleep (1)]: the other threads run meanwhile; [cancel] tells whether one
    of them calls [disable_autoboot] during this second. *)
Definition sleep1 (cancel : bool) (s : state) : state :=
  let s := emit (Sleep 1) s in
  if cancel then disable_autoboot s else s.

(** The [for] loop and what follows it.  [others] lists, second by second,
    whether another thread cancels during that second. *)
Fixpoint countdown (sleep_time : nat) (others : list bool) (e : boot_env)
    (s : state) : outcome unit :=
  match sleep_time with
  | O => start_default_kernel e s
  | S n =>
      let s := emit (Dprintf ALWAYS "Automatic boot in %d seconds.") s in
      let s := sleep1 (hd false others) s in
      if autoboot_enabled s =? 0 then Returns tt s
      else countdown n (tl others) e s
  end.

Definition autoboot_thread (sleep_time : nat) (others : list bool)
    (e : boot_env) (s : state) : outcome unit :=
  if autoboot_enabled s =? 0 then Returns tt s
  else countdown sleep_time others e s.

(** *** The input listener *)

(** The input directory as the listener sees it: the names [readdir] yields
    ([None] when [opendir] fails), [stat] of a path ([None] when it fails,
    else whether the node is a character device) and the descriptor [open]
    returns for a path (negative when it fails). *)
Record input_fs := mkInputFs {
  readdir : option (list string);
  stat_ischr : string -> option bool;
  open_fd : string -> Z
}.

Definition open_event_node (fs : input_fs) (devname : string)
    (rfds : gset Z) (max_fd : Z) (s : state) : gset Z * Z * state :=
  let fd := open_fd fs devname in
  if fd <? 0 then
    (rfds, max_fd, emit (Dprintf INFO "Unable to open %s. fd=%d, errno=%d") s)
  else
    let s := emit (Dprintf INFO "Opened %s. fd=%d") s in
    ({[fd]} ∪ rfds, (if fd >? max_fd then fd else max_fd), s).

(** [snprintf (filename, 128, "/dev/input/%s", d_name)] *)
Definition filename_of (d_name : string) : string :=
  substring 0 127 ("/dev/input/" ++ d_name).

Definition is_dot (d_name : string) : bool :=
  String.eqb "." d_name || String.eqb ".." d_name.

(** The first [while (1)]: every entry of the directory in turn. *)
Fixpoint scan_dir (fs : input_fs) (names : list string)
    (rfds : gset Z) (max_fd : Z) (s : state) : outcome (gset Z * Z) :=
  match names with
  | [] => Returns (rfds, max_fd) s
  | d_name :: rest =>
      if is_dot d_name then scan_dir fs rest rfds max_fd s
      else
        let filename := filename_of d_name in
        match stat_ischr fs filename with
        | None => die (emit (Dperror "stat") s)
        | Some ischr =>
            if negb ischr then scan_dir fs rest rfds max_fd s
            else
              let '(rfds', max_fd', s') :=
                open_event_node fs filename rfds max_fd s in
              scan_dir fs rest rfds' max_fd' s'
        end
  end.

(** What [read (i, &event, sizeof (event))] gives on a readable descriptor. *)
Inductive read_result :=
| Short (deb : Z)
| Input_event (type code value : Z).

(** One return of [select]: the descriptors reported readable, each with the
    result of the read that follows. *)
Definition ready := gmap Z read_result.

Inductive control :=
| Continue (s : state)
| Goto_out (s : state).

(** The [switch] on the event. *)
Definition on_event (type code : Z) (s : state) : control :=
  if type =? EV_KEY then
    if code =? KEY_DOT then Continue s
    else Goto_out (disable_autoboot s)
  else if (type =? EV_ABS) || (type =? EV_REL) then
    Goto_out (disable_autoboot s)
  else Continue s.

(** The [for] loop over the descriptors [i], given as the list still to
    visit. *)
Fixpoint scan_fds (indices : list Z) (rfds : gset Z) (fds : ready) (s : state)
  : control :=
  match indices with
  | [] => Continue s
  | i :: rest =>
      if negb (bool_decide (i ∈ rfds)) then scan_fds rest rfds fds s
      else
        match fds !! i with
        | None => scan_fds rest rfds fds s
        | Some (Short deb) =>
            scan_fds rest rfds fds
              (emit (Dprintf INFO "Unable to read event from fd=%d, deb=%d, errno=%d") s)
        | Some (Input_event type code value) =>
            let s := emit (Dprintf SPEW "read from fd=%d. Event type: %x, code: %x, value: %x") s in
            match on_event type code s with
            | Continue s => scan_fds rest rfds fds s
            | Goto_out s => Goto_out s
            end
        end
  end.

Definition exit_listener (s : state) : outcome unit :=
  Returns tt (emit (Dprintf SPEW "exit input listener thread") s).

(** The second [while (1)], over the returns of [select] the environment
    provides; when they are used up the thread is blocked in [select]. *)
Fixpoint listen (selects : list ready) (rfds : gset Z) (max_fd : Z)
    (s : state) : outcome unit :=
  match selects with
  | [] => Blocks s
  | fds :: later =>
      let s := emit (Dprintf SPEW "select returns %d (errno=%d)") s in
      match scan_fds (seqZ 0 (max_fd + 1)) rfds fds s with
      | Continue s => listen later rfds max_fd s
      | Goto_out s => exit_listener s
      end
  end.

Definition input_listener_thread (fs : input_fs) (selects : list ready)
    (s : state) : outcome unit :=
  let s := emit (Dprintf SPEW "begin input listener thread") s in
  match readdir fs with
  | None => exit_listener (emit (Dperror "opendir") s)
  | Some names =>
      match scan_dir fs names ∅ (-1) s with
      | Returns (rfds, max_fd) s =>
          if max_fd <? 0 then
            exit_listener
              (emit (Dprintf CRITICAL "Unable to open any input device.") s)
          else listen selects rfds max_fd s
      | Dies s => Dies s
      | Boots s => Boots s
      | Blocks s => Blocks s
      end
  end.

(** *** The operations of the file on the shared state *)

Inductive op :=
| Op_disable_autoboot
| Op_start_default_kernel (e : boot_env)
| Op_autoboot_thread (sleep_time : nat) (others : list bool) (e : boot_env)
| Op_input_listener_thread (fs : input_fs) (selects : list ready).

Definition run_op (o : op) (s : state) : outcome unit :=
  match o with
  | Op_disable_autoboot => Returns tt (disable_autoboot s)
  | Op_start_default_kernel e => start_default_kernel e s
  | Op_autoboot_thread n others e => autoboot_thread n others e s
  | Op_input_listener_thread fs selects => input_listener_thread fs selects s
  end.

(** Operations one after the other, until the process ends. *)
Fixpoint run_ops (os : list op) (s : state) : state :=
  match os with
  | [] => s
  | o :: rest =>
      match run_op o s with
      | Returns _ s' | Blocks s' => run_ops rest s'
      | Dies s' | Boots s' => s'
      end
  end.

(** How often the transition to "disabled" was logged. *)
Definition is_disabled_msg (e : event) : bool :=
  match e with
  | Dprintf INFO fmt => String.eqb fmt "Autoboot disabled."
  | _ => false
  end.

Definition transitions (s : state) : nat :=
  length (List.filter is_disabled_msg (trace s)).

(** *** Observations and sample states *)

Definition is_boot_call (e : event) : bool :=
  match e with
  | Call_start_default_kernel => true
  | _ => false
  end.

(** How often [start_default_kernel] was entered. *)
Definition boots (s : state) : nat :=
  length (List.filter is_boot_call (trace s)).

Definition armed : state := mkState 1 [].

(** From [s] to [s'] the flag went from set to clear at most once, never
    back, and each such step logged one line. *)
Definition once (s s' : state) : Prop :=
  (autoboot_enabled s = 0 ->
     autoboot_enabled s' = 0 /\ transitions s' = transitions s) /\
  (autoboot_enabled s <> 0 ->
     (autoboot_enabled s' = autoboot_enabled s /\
      transitions s' = transitions s) \/
     (autoboot_enabled s' = 0 /\ transitions s' = S (transitions s))).

Definition control_state (c : control) : state :=
  match c with
  | Continue s | Goto_out s => s
  end.

Definition boot_ok : boot_env := mkBootEnv true true true true None.

(** /dev/input with two character devices, one of which cannot be opened,
    and a directory. *)
Definition sample_fs : input_fs :=
  mkInputFs
    (Some ["."; ".."; "mice"; "by-path"; "event0"])
    (fun path =>
       if String.eqb path "/dev/input/by-path" then Some false else Some true)
    (fun path => if String.eqb path "/dev/input/event0" then 3 else -1).

(** The same directory with an entry that [stat] fails on. *)
Definition stale_fs : input_fs :=
  mkInputFs
    (Some ["."; ".."; "mice"; "gone"; "event0"])
    (fun path =>
       if String.eqb path "/dev/input/gone" then None else Some true)
    (fun path => if String.eqb path "/dev/input/event0" then 3 else -1).

Definition KEY_A : Z := 30.

Definition read_msg : event :=
  Dprintf SPEW "read from fd=%d. Event type: %x, code: %x, value: %x".

Definition select_msg : event := Dprintf SPEW "select returns %d (errno=%d)".

Definition begin_msg : event := Dprintf SPEW "begin input listener thread".

Definition unable_msg : event :=
  Dprintf INFO "Unable to open %s. fd=%d, errno=%d".

(** *** Further observations *)

Definition is_sleep (e : event) : bool :=
  match e with
  | Sleep _ => true
  | _ => false
  end.

(** How many seconds the program has slept. *)
Definition sleeps (s : state) : nat :=
  length (List.filter is_sleep (trace s)).

(** The events that make the listener cancel autoboot. *)
Definition cancels (type code : Z) : bool :=
  ((type =? EV_KEY) && negb (code =? KEY_DOT))
  || (type =? EV_ABS) || (type =? EV_REL).

(** Descriptor [i] is watched, readable, and the event read on it cancels. *)
Definition fd_cancels (rfds : gset Z) (fds : ready) (i : Z) : bool :=
  bool_decide (i ∈ rfds) &&
  match fds !! i with
  | Some (Input_event type code _) => cancels type code
  | _ => false
  end.

Definition round_cancels (rfds : gset Z) (max_fd : Z) (fds : ready) : bool :=
  existsb (fd_cancels rfds fds) (seqZ 0 (max_fd + 1)).

(** The descriptors the scan of the directory opens: those of the entries
    other than "." and ".." that are character devices and open. *)
Fixpoint opened (fs : input_fs) (names : list string) : list Z :=
  match names with
  | [] => []
  | d_name :: rest =>
      if is_dot d_name then opened fs rest
      else
        match stat_ischr fs (filename_of d_name) with
        | Some true =>
            if open_fd fs (filename_of d_name) <? 0 then opened fs rest
            else open_fd fs (filename_of d_name) :: opened fs rest
        | _ => opened fs rest
        end
  end.

(** [stat] fails on no entry of the directory that is looked at. *)
Definition all_stat (fs : input_fs) (names : list string) : Prop :=
  Forall (fun d_name =>
            is_dot d_name = false ->
            stat_ischr fs (filename_of d_name) <> None) names.

End Droidboot.

(** ** Facts about update_osip.c *)

Module UpdateOsipFacts.
Import UpdateOsip.

Lemma submitted_in_app tr1 tr2 :
  submitted_in (tr1 ++ tr2) = submitted_in tr1 ++ submitted_in tr2.
Proof.
  induction tr1 as [|e tr1 IH]; [reflexivity|].
  destruct e; simpl; rewrite IH; reflexivity.
Qed.

Lemma quiet_refl w : quiet w w.
Proof. repeat split. Qed.

Lemma quiet_trans w1 w2 w3 : quiet w1 w2 -> quiet w2 w3 -> quiet w1 w3.
Proof.
  intros [(?&?&?&?) ?] [(?&?&?&?) ?]. repeat split; congruence.
Qed.

Lemma bind_Ret {A B} (m : M A) (k : A -> M B) w b w' :
  bind m k w = Ret b w' -> exists a w1, m w = Ret a w1 /\ k a w1 = Ret b w'.
Proof.
  unfold bind. destruct (m w) as [a w1|]; [eauto | discriminate].
Qed.

Lemma ret_Ret {A} (a b : A) w w' : ret a w = Ret b w' -> a = b /\ w = w'.
Proof. unfold ret. intros H. inversion H. auto. Qed.

Lemma syscall_quiet f w w' : syscall w = Ret f w' -> quiet w w'.
Proof.
  unfold syscall. destruct (faults w); intros H; inversion H; subst;
    repeat split.
Qed.

Lemma emit_quiet e w u w' :
  (forall h, e <> Submit h) -> emit e w = Ret u w' -> quiet w w'.
Proof.
  unfold emit. intros He H. inversion H; subst. repeat split.
  unfold submitted. simpl. rewrite submitted_in_app. simpl.
  destruct e; try (apply app_nil_r). exfalso. eapply He. reflexivity.
Qed.

Lemma get_world_Ret w a w' : get_world w = Ret a w' -> a = w /\ w' = w.
Proof. unfold get_world. intros H. inversion H. auto. Qed.

(** One step of taking a run that returned apart. *)
Ltac step :=
  match goal with
  | H : bind _ _ _ = Ret _ _ |- _ =>
      let a := fresh "a" in let w := fresh "w" in let H1 := fresh "Hm" in
      apply bind_Ret in H; destruct H as (a & w & H1 & H)
  | H : ret _ _ = Ret _ _ |- _ => apply ret_Ret in H; destruct H; subst
  | H : get_world _ = Ret _ _ |- _ =>
      apply get_world_Ret in H; destruct H; subst
  | H : undef _ = Ret _ _ |- _ => discriminate H
  | H : (if ?c then _ else _) _ = Ret _ _ |- _ => destruct c eqn:?
  | H : (match ?c with _ => _ end) _ = Ret _ _ |- _ => destruct c eqn:?
  end.

Ltac to_quiet :=
  repeat match goal with
  | H : syscall _ = Ret _ _ |- _ => apply syscall_quiet in H
  | H : emit _ _ = Ret _ _ |- _ => apply emit_quiet in H; [|discriminate]
  end.

Ltac open_quiet :=
  repeat match goal with
  | H : quiet _ _ |- _ => destruct H as [(?&?&?&?) ?]
  end.

Ltac quiet_tac :=
  to_quiet; open_quiet; unfold quiet, same_device;
  repeat split; try congruence.

Lemma get_page_size_quiet v w w' : get_page_size w = Ret v w' -> quiet w w'.
Proof.
  unfold get_page_size. intros H. repeat step; quiet_tac.
Qed.

Lemma in_int_range v r : in_int v = Converted r -> r = v /\ INT_MIN <= v <= INT_MAX.
Proof.
  unfold in_int. destruct (_ && _) eqn:E; [|discriminate].
  intros H. inversion H; subst. apply andb_prop in E. lia.
Qed.

Lemma sscanf_d_range s v : sscanf_d s = Converted v -> INT_MIN <= v <= INT_MAX.
Proof.
  unfold sscanf_d. intros H.
  repeat match type of H with
         | context [match ?c with _ => _ end] => destruct c
         | context [if ?c then _ else _] => destruct c
         end; try discriminate; apply in_int_range in H; lia.
Qed.

Lemma quot_KBYTES_range v :
  INT_MIN <= v <= INT_MAX -> - 2 ^ 21 <= Z.quot v KBYTES < 2 ^ 21.
Proof.
  unfold INT_MIN, INT_MAX, KBYTES. intros Hv.
  destruct (Z_lt_le_dec v 0) as [Hneg|Hpos].
  - replace v with (- (- v)) by lia.
    rewrite Z.quot_opp_l by lia. rewrite Z.quot_div_nonneg by lia.
    assert (0 <= - v / 1024 <= 2 ^ 21); [|lia].
    split; [apply Z.div_pos; lia|].
    apply Z.div_le_upper_bound; lia.
  - rewrite Z.quot_div_nonneg by lia.
    split; [assert (0 <= v / 1024) by (apply Z.div_pos; lia); lia|].
    apply Z.div_lt_upper_bound; lia.
Qed.

Lemma get_page_size_range v w w' :
  get_page_size w = Ret v w' -> - 2 ^ 21 <= v < 2 ^ 21.
Proof.
  unfold get_page_size. intros H. repeat step; try lia.
  apply quot_KBYTES_range. eapply sscanf_d_range. eassumption.
Qed.

Lemma s32_small z : INT_MIN <= z <= INT_MAX -> s32 z = z.
Proof.
  unfold INT_MIN, INT_MAX, s32. intros Hz.
  destruct (Z_lt_le_dec z 0).
  - replace (z mod 2 ^ 32) with (z + 2 ^ 32)
      by (apply Z.mod_unique with (q := -1); lia).
    destruct (Z.ltb_spec (z + 2 ^ 32) (2 ^ 31)); lia.
  - rewrite Z.mod_small by lia.
    destruct (Z.ltb_spec z (2 ^ 31)); lia.
Qed.

Lemma u32_small z : 0 <= z < 2 ^ 32 -> u32 z = z.
Proof. apply Z.mod_small. Qed.

Lemma get_block_size_inv v w w' :
  get_block_size w = Ret v w' -> get_page_size w = Ret v w'.
Proof.
  unfold get_block_size. intros H. repeat step.
  pose proof (get_page_size_range _ _ _ Hm) as Hr.
  rewrite Hm. f_equal. unfold MMC_PAGES_PER_BLOCK.
  rewrite Z.mul_1_r. symmetry. apply s32_small. unfold INT_MIN, INT_MAX. lia.
Qed.

Lemma read_OSIP_loc_inv dump r w w' :
  read_OSIP_loc R_START dump w = Ret r w' ->
  quiet w w' /\ (fst r = -1 \/ r = (1, mmc_osip w)).
Proof.
  unfold read_OSIP_loc, R_START. simpl. intros H.
  repeat step; simpl; (split; [quiet_tac | auto]).
  all: right; quiet_tac.
Qed.

Lemma write_OSIP_inv t r w w' :
  write_OSIP t w = Ret r w' ->
  submitted w' = submitted w ++ [t] /\
  erase_size w' = erase_size w /\ mmc_backup w' = mmc_backup w /\
  mmc_payload w' = mmc_payload w /\
  (r = 0 /\ mmc_osip w' = t \/ r = -1 /\ mmc_osip w' = mmc_osip w).
Proof.
  unfold write_OSIP. intros H. step.
  assert (Hs : submitted w0 = submitted w ++ [t] /\ same_device w w0).
  { unfold emit in Hm. inversion Hm; subst. unfold submitted; simpl.
    rewrite submitted_in_app. repeat split. }
  clear Hm. destruct Hs as [Hs (?&?&?&?)].
  repeat step;
    repeat match goal with
           | H : store_osip _ _ = Ret _ _ |- _ =>
               unfold store_osip in H; inversion H; subst; clear H; simpl in *
           end; to_quiet; open_quiet;
    repeat split; try congruence.
  - right. split; congruence.
  - right. split; congruence.
  - unfold submitted in *. simpl. congruence.
  - left. split; reflexivity.
Qed.

Lemma desc_at_Some h i d :
  desc_at h i = Some d -> 0 <= i < OSII_TOTAL /\ desc h !! Z.to_nat i = Some d.
Proof.
  unfold desc_at. destruct (_ && _) eqn:E; [|discriminate].
  apply andb_prop in E. intros ->. split; [lia | reflexivity].
Qed.

Lemma store_payload_inv r u w w' :
  store_payload r w = Ret u w' ->
  w' = mkWorld (erase_size w) (lay_over 0 r (mmc_osip w))
               (lay_over BACKUP_LOC r (mmc_backup w))
               (mmc_payload w ++ [r]) (faults w) (trace w).
Proof.
  unfold store_payload. destruct (_ && _); [discriminate|].
  intros H. inversion H. reflexivity.
Qed.

Lemma stitch_fst_start_block t osii old k ps o1 o2 :
  stitch t osii old k ps = (o1, o2) ->
  logical_start_block o1 = logical_start_block old.
Proof. unfold stitch. intros H. inversion H. reflexivity. Qed.

Lemma syscall_no_fault f w w' :
  no_fault w = true -> syscall w = Ret f w' -> f = false /\ no_fault w' = true.
Proof.
  unfold no_fault, syscall. destruct (faults w) as [|f0 fs] eqn:E; simpl.
  - intros _ H. inversion H; subst. rewrite E. auto.
  - intros N H. inversion H; subst. simpl.
    apply andb_prop in N as [N1 N2]. apply negb_true_iff in N1. auto.
Qed.

Lemma emit_no_fault e w u w' : emit e w = Ret u w' -> no_fault w' = no_fault w.
Proof. unfold emit. intros H. inversion H. reflexivity. Qed.

(** Carrying [no_fault] along the calls of a run. *)
Ltac push_no_fault :=
  repeat match goal with
  | N : no_fault ?w = true, H : syscall ?w = Ret _ _ |- _ =>
      let E := fresh "E" in let N' := fresh "N" in
      destruct (syscall_no_fault _ _ _ N H) as [E N']; clear N;
      try discriminate E
  | N : no_fault ?w = true, H : emit _ ?w = Ret _ _ |- _ =>
      let N' := fresh "N" in
      pose proof (emit_no_fault _ _ _ _ H) as N'; rewrite N in N'; clear N
  end.

Lemma get_page_size_no_fault v w w' :
  no_fault w = true -> get_page_size w = Ret v w' -> no_fault w' = true.
Proof.
  unfold get_page_size. intros N H. repeat step; push_no_fault; assumption.
Qed.

Lemma read_OSIP_loc_no_fault location dump r w w' :
  no_fault w = true -> read_OSIP_loc location dump w = Ret r w' ->
  no_fault w' = true.
Proof.
  unfold read_OSIP_loc. intros N H. repeat step; push_no_fault; assumption.
Qed.

Lemma write_OSIP_no_fault t r w w' :
  no_fault w = true -> write_OSIP t w = Ret r w' ->
  r = 0 /\ mmc_osip w' = t /\ no_fault w' = true.
Proof.
  unfold write_OSIP. intros N H. repeat step; push_no_fault.
  match goal with
  | H : store_osip _ _ = Ret _ _ |- _ =>
      unfold store_osip in H; inversion H; subst; clear H
  end.
  repeat split. assumption.
Qed.

Lemma lseek_set_u32 x :
  lseek_set (u32 x) = if u32 x <? 2 ^ 31 then u32 x else 0.
Proof.
  unfold lseek_set, s32, u32. rewrite Z.mod_mod by lia.
  pose proof (Z.mod_pos_bound x (2 ^ 32) ltac:(lia)).
  destruct (Z.ltb_spec (x mod 2 ^ 32) (2 ^ 31)).
  - destruct (Z.ltb_spec (x mod 2 ^ 32) 0); [lia | reflexivity].
  - destruct (Z.ltb_spec (x mod 2 ^ 32 - 2 ^ 32) 0); [reflexivity | lia].
Qed.

(** A payload write that starts behind the table leaves the table alone. *)
Lemma payload_write_clear old block_size data size h :
  sizeof_OSIP_header <= logical_start_block old * block_size < 2 ^ 31 ->
  at_offset (payload_write old block_size data size)
    = logical_start_block old * block_size /\
  lay_over 0 (payload_write old block_size data size) h = h.
Proof.
  intros Hclear.
  assert (Hpos : 0 <= sizeof_OSIP_header) by (vm_compute; discriminate).
  assert (Hoff : at_offset (payload_write old block_size data size)
                 = logical_start_block old * block_size).
  { unfold payload_write. simpl. rewrite lseek_set_u32.
    rewrite u32_small by lia.
    destruct (Z.ltb_spec (logical_start_block old * block_size) (2 ^ 31));
      [reflexivity | lia]. }
  split; [exact Hoff|].
  unfold lay_over, hits. rewrite Hoff.
  destruct (Z.ltb_spec (logical_start_block old * block_size)
                       (0 + sizeof_OSIP_header)); [lia | reflexivity].
Qed.

(** What a run of [write_stitch_image] that returned 0 went through. *)
Lemma write_stitch_image_ok data size update_number w w' :
  write_stitch_image data size update_number w = Ret 0 w' ->
  exists osii blob old block_size page_size w1 w2,
    crack_stitched_image data = Some (osii, blob) /\
    u32 (size_of_os_image osii * STITCHED_IMAGE_PAGE_SIZE)
      = u32 (size - STITCHED_IMAGE_BLOCK_SIZE) /\
    get_block_size w = Ret block_size w1 /\
    get_page_size w1 = Ret page_size w2 /\
    desc_at (mmc_osip w) update_number = Some old /\
    u32 page_size <> 0 /\
    let t := snd (stitch (mmc_osip w) osii old update_number page_size) in
    let p := payload_write old block_size data size in
    submitted w' = submitted w ++ [t] /\
    exists h,
      (h = t \/ h = mmc_osip w) /\
      (no_fault w = true -> h = t) /\
      ((mmc_osip w' = lay_over 0 p h /\
        mmc_payload w' = mmc_payload w ++ [p]) \/
       (mmc_osip w' = h /\ mmc_payload w' = mmc_payload w /\
        s32 (u32 (size - STITCHED_IMAGE_BLOCK_SIZE)) <= -1 /\
        no_fault w = false)).
Proof.
  unfold write_stitch_image. intros H.
  repeat step; try discriminate.
  all: match goal with
       | H : crack_stitched_image _ = Some (_, ?b) |- _ =>
           pose proof H as Hcrack; unfold crack_stitched_image in H;
           destruct (leading_block data); [|discriminate];
           assert (b = following data) as -> by congruence; clear H
       end.
  all: match goal with
       | H : stitch _ _ _ _ _ = _ |- _ =>
           pose proof (stitch_fst_start_block _ _ _ _ _ _ _ H) as Hlsb
       end.
  all: match goal with
       | H : read_OSIP_loc _ _ _ = Ret ?r _ |- _ =>
           pose proof (fun N => read_OSIP_loc_no_fault _ _ _ _ _ N H) as NFread;
           apply read_OSIP_loc_inv in H; destruct H as [? [Hneg | ->]];
           [rewrite Hneg in *; discriminate | cbn [fst snd] in *]
       end.
  all: match goal with
       | H : get_block_size _ = Ret _ _ |- _ =>
           pose proof H as Hbs; apply get_block_size_inv in H;
           pose proof (fun N => get_page_size_no_fault _ _ _ N H) as NFbs;
           apply get_page_size_quiet in H
       end.
  all: match goal with
       | H : get_page_size _ = Ret _ _ |- _ =>
           pose proof H as Hps;
           pose proof (fun N => get_page_size_no_fault _ _ _ N H) as NFps;
           apply get_page_size_quiet in H
       end.
  all: match goal with
       | H : write_OSIP _ _ = Ret _ _ |- _ =>
           pose proof (fun N => write_OSIP_no_fault _ _ _ _ N H) as NFw;
           apply write_OSIP_inv in H; destruct H as (Hsub & ? & ? & ? & Hw)
       end.
  all: repeat match goal with
       | H : emit _ ?wa = Ret _ ?wb |- _ =>
           pose proof (emit_no_fault _ _ _ _ H); apply emit_quiet in H;
           [|discriminate]
       end.
  all: repeat match goal with
       | H : syscall ?wa = Ret ?f ?wb |- _ =>
           pose proof (fun N => syscall_no_fault _ _ _ N H);
           apply syscall_quiet in H
       end.
  all: repeat match goal with
       | H : store_payload _ _ = Ret _ _ |- _ =>
           apply store_payload_inv in H; subst
       end.
  all: open_quiet.
  all: match goal with
       | H : desc_at (mmc_osip ?x) _ = Some _, H' : stitch _ _ _ _ _ = _ |- _ =>
           assert (Hx : mmc_osip x = mmc_osip w) by congruence;
           rewrite Hx in H, H'
       end.
  all: do 7 eexists; split; [reflexivity|].
  all: split; [apply Z.eqb_eq, negb_false_iff; eassumption|].
  all: split; [exact Hbs|]; split; [exact Hps|].
  all: split; [eassumption|].
  all: split; [apply Z.eqb_neq; assumption|].
  all: cbv zeta;
       match goal with
       | H : stitch _ _ _ _ _ = _ |- _ => rewrite H
       end.
  all: split; [unfold submitted in *; simpl in *; congruence|].
  all: match goal with
       | Hw : _ /\ mmc_osip ?w6 = _ \/ _ /\ mmc_osip ?w6 = _ |- _ =>
           exists (mmc_osip w6)
       end.
  all: split;
       [ destruct Hw as [[_ Hw]|[_ Hw]]; [left | right]; simpl; congruence |].
  all: split;
       [ intros N;
         repeat match goal with
         | N : no_fault ?x = true, I : no_fault ?x = true -> _ |- _ =>
             specialize (I N)
         | N : no_fault ?x = true, E : no_fault ?y = no_fault ?x |- _ =>
             rewrite N in E
         | I : _ = false /\ no_fault _ = true |- _ => destruct I
         | I : _ = 0 /\ mmc_osip _ = _ /\ no_fault _ = true |- _ =>
             destruct I as (? & ? & ?)
         end; simpl; congruence |].
  - right. simpl. split; [congruence|]. split; [congruence|].
    split; [apply Z.ltb_ge; assumption|].
    apply not_true_is_false. intros N.
    repeat match goal with
         | N : no_fault ?x = true, I : no_fault ?x = true -> _ |- _ =>
             specialize (I N)
         | N : no_fault ?x = true, E : no_fault ?y = no_fault ?x |- _ =>
             rewrite N in E
         | I : _ = false /\ no_fault _ = true |- _ => destruct I
         | I : _ = 0 /\ mmc_osip _ = _ /\ no_fault _ = true |- _ =>
             destruct I as (? & ? & ?)
         end; discriminate.
  - left. unfold payload_write. rewrite <- Hlsb. simpl. split.
    + f_equal. congruence.
    + congruence.
Qed.

Lemma stitch_num_images t osii old k ps :
  num_images (snd (stitch t osii old k ps)) = 1.
Proof. reflexivity. Qed.

Lemma stitch_desc_other t osii old k ps j :
  j <> Z.to_nat k ->
  desc (snd (stitch t osii old k ps)) !! j = desc t !! j.
Proof. intros Hj. simpl. apply list_lookup_insert_ne. congruence. Qed.

Lemma stitch_desc_slot t osii old k ps :
  desc_at t k = Some old ->
  desc_at (snd (stitch t osii old k ps)) k = Some (fst (stitch t osii old k ps)).
Proof.
  intros H. pose proof (desc_at_Some _ _ _ H) as [Hk Hl].
  unfold desc_at in *. destruct (_ && _); [|discriminate]. simpl.
  apply list_lookup_insert_eq. eapply lookup_lt_Some. eassumption.
Qed.

(** A run that returned 0 and whose payload write starts behind the table:
    the table on the device is the one handed to write_OSIP, or the table as
    it was when a system call of write_OSIP failed. *)
Lemma write_stitch_image_clear data size update_number w w' old block_size w1 :
  write_stitch_image data size update_number w = Ret 0 w' ->
  desc_at (mmc_osip w) update_number = Some old ->
  get_block_size w = Ret block_size w1 ->
  sizeof_OSIP_header <= logical_start_block old * block_size < 2 ^ 31 ->
  exists t,
    submitted w' = submitted w ++ [t] /\
    (mmc_osip w' = t \/ mmc_osip w' = mmc_osip w) /\
    (no_fault w = true -> mmc_osip w' = t).
Proof.
  intros H Hold Hbs Hclear. apply write_stitch_image_ok in H.
  destruct H as (osii & blob & old' & bs & ps & w1' & w2
                 & _ & _ & Hbs' & _ & Hold' & _ & Hsub & h & Hh & Hnf & Hdev).
  rewrite Hold in Hold'. inversion Hold'; subst old'.
  rewrite Hbs in Hbs'. inversion Hbs'; subst bs w1'.
  destruct (payload_write_clear old block_size data size h Hclear) as [_ Hlay].
  assert (Hw' : mmc_osip w' = h).
  { destruct Hdev as [[Hd _] | [Hd _]]; [|exact Hd].
    rewrite Hd. exact Hlay. }
  eexists. split; [exact Hsub|]. rewrite Hw'. split; [exact Hh | exact Hnf].
Qed.




(** C6.  Every run of write_stitch_image that returns 0 has handed
    write_OSIP exactly one table.  That table is built from the table read
    from the device -- its signature and the slots other than
    [update_number] are the device's -- and it has num_images = 1 whatever
    count the device recorded.  Where no system call fails and the payload
    write starts behind the table, the device holds that table afterwards,
    so the count it records is 1. *)
Theorem write_stitch_image_num_images data size update_number w w' :
  write_stitch_image data size update_number w = Ret 0 w' ->
  exists t,
    submitted w' = submitted w ++ [t] /\
    num_images t = 1 /\
    sig t = sig (mmc_osip w) /\
    (forall j : nat, j <> Z.to_nat update_number ->
       desc t !! j = desc (mmc_osip w) !! j) /\
    (forall old block_size w1,
       desc_at (mmc_osip w) update_number = Some old ->
       get_block_size w = Ret block_size w1 ->
       sizeof_OSIP_header <= logical_start_block old * block_size < 2 ^ 31 ->
       no_fault w = true ->
       mmc_osip w' = t /\ num_images (mmc_osip w') = 1).
Proof.
  intros H. pose proof H as Hrun. apply write_stitch_image_ok in H.
  destruct H as (osii & blob & old & bs & ps & w1 & w2
                 & _ & _ & _ & _ & _ & _ & Hsub & _).
  cbv zeta in *. eexists. split; [exact Hsub|].
  split; [apply stitch_num_images|]. split; [reflexivity|].
  split; [intros j Hj; apply stitch_desc_other; assumption|].
  intros old' block_size w1' Hold Hbs Hclear Hnf.
  destruct (write_stitch_image_clear _ _ _ _ _ _ _ _ Hrun Hold Hbs Hclear)
    as (t & Hsub' & _ & Hdev).
  rewrite Hsub in Hsub'. apply app_inv_head in Hsub'.
  specialize (Hdev Hnf). rewrite Hdev.
  assert (Ht : t = snd (stitch (mmc_osip w) osii old update_number ps))
    by congruence.
  split; [exact Ht|]. rewrite Ht. apply stitch_num_images.
Qed.

Lemma write_stitch_image_num_images_witness :
  write_stitch_image image_1_page 1024 2 sample_world
    = Ret 0 (sample_after image_1_page 1024 2 sample_world) /\
  num_images sample_table = 3 /\
  (exists t,
     submitted (sample_after image_1_page 1024 2 sample_world) = [t] /\
     num_images t = 1) /\
  num_images (mmc_osip (sample_after image_1_page 1024 2 sample_world)) = 1.
Proof.
  assert (Hrun : write_stitch_image image_1_page 1024 2 sample_world
                 = Ret 0 (sample_after image_1_page 1024 2 sample_world))
    by (vm_compute; reflexivity).
  split; [exact Hrun|]. split; [reflexivity|].
  destruct (write_stitch_image_num_images _ _ _ _ _ Hrun)
    as (t & Hs & Hn & _ & _ & Hdev).
  split; [exists t; split; [exact Hs | exact Hn]|].
  assert (Hbs : get_block_size sample_world
                = Ret 2 (after (get_block_size sample_world) sample_world))
    by (vm_compute; reflexivity).
  assert (Hold : desc_at (mmc_osip sample_world) 2
                 = Some (mkOSII 0 1 3000 0x1100000 0x1101000 50 0))
    by (vm_compute; reflexivity).
  destruct (Hdev _ _ _ Hold Hbs ltac:(split; [vm_compute; discriminate | reflexivity])
              eq_refl) as [_ Hcount].
  exact Hcount.
Defined.

(** C6, as the claim has it, fails on the device.  On a device with one
    image the run on the unused slot 1 returns 0 and hands over a table with
    num_images = 1, but the payload, written at offset 0, lands on the table
    just written, and the count the device records afterwards is not 1. *)
Lemma write_stitch_image_num_images_overlaid :
  exists w' t,
    write_stitch_image image_1_page 1024 1 one_image_world = Ret 0 w' /\
    no_fault one_image_world = true /\
    submitted w' = [t] /\ num_images t = 1 /\
    num_images (mmc_osip w') <> 1.
Proof.
  eexists. eexists. split; [vm_compute; reflexivity|].
  split; [reflexivity|].
  split; [vm_compute; reflexivity|].
  split; [reflexivity|]. vm_compute. discriminate.
Qed.

Lemma stored_size_exact p s :
  0 <= p -> p * 512 + 512 < 2 ^ 32 -> 0 < s < 2 ^ 21 ->
  u32 (u32 (p * STITCHED_IMAGE_PAGE_SIZE) / u32 s + 1) = p * 512 / s + 1.
Proof.
  unfold STITCHED_IMAGE_PAGE_SIZE. intros Hp Hlen Hs.
  rewrite (u32_small (p * 512)) by lia.
  rewrite (u32_small s) by lia.
  apply u32_small.
  assert (0 <= p * 512 / s) by (apply Z.div_pos; lia).
  assert (p * 512 / s <= p * 512) by (apply Z.div_le_upper_bound; nia).
  lia.
Qed.

(** C4.  For a stitched image whose length is the declared one,
    512 * pages + 512, a run of write_stitch_image that returns 0 stores in
    the slot the size pages * 512 / page_size + 1, where page_size > 0 is
    what get_page_size returned to it and the division truncates: the stored
    size times the page size always exceeds pages * 512.  With the erase
    size attribute reading "2048\n" both get_page_size and get_block_size
    return 2, and an image declaring 100 pages, 100 * 512 + 512 bytes long,
    is stored with size 100 * 512 / 2 + 1. *)
Theorem write_stitch_image_size_field :
  (forall data size update_number w w' incoming,
     write_stitch_image data size update_number w = Ret 0 w' ->
     leading_block data = Some incoming ->
     0 <= size_of_os_image incoming ->
     size = size_of_os_image incoming * 512 + 512 ->
     size < 2 ^ 32 ->
     exists block_size page_size w1 w2 t stored,
       get_block_size w = Ret block_size w1 /\
       get_page_size w1 = Ret page_size w2 /\
       submitted w' = submitted w ++ [t] /\
       desc_at t update_number = Some stored /\
       (0 < page_size ->
        size_of_os_image stored
          = size_of_os_image incoming * 512 / page_size + 1 /\
        size_of_os_image incoming * 512 < size_of_os_image stored * page_size))
  /\
  (forall payload, exists w1 w2 w' stored,
     get_page_size sample_world = Ret 2 w1 /\
     get_block_size sample_world = Ret 2 w2 /\
     write_stitch_image (mkStitched (Some (declares 100)) payload)
                        (100 * 512 + 512) 2 sample_world = Ret 0 w' /\
     desc_at (mmc_osip w') 2 = Some stored /\
     size_of_os_image stored = 100 * 512 / 2 + 1).
Proof.
  split.
  - intros data size k w w' incoming H Hl Hp Hsize Hfit.
    apply write_stitch_image_ok in H.
    destruct H as (osii & blob & old & bs & ps & w1 & w2
                   & Hc & _ & Hbs & Hps & Hold & _ & Hsub & _).
    cbv zeta in *. unfold crack_stitched_image in Hc. rewrite Hl in Hc.
    inversion Hc; subst osii blob.
    exists bs, ps, w1, w2. eexists. eexists.
    split; [exact Hbs|]. split; [exact Hps|]. split; [exact Hsub|].
    split; [apply stitch_desc_slot; exact Hold|].
    intros Hpos. pose proof (get_page_size_range _ _ _ Hps) as Hr.
    simpl size_of_os_image.
    rewrite stored_size_exact by lia.
    split; [reflexivity|].
    pose proof (Z.mul_succ_div_gt (size_of_os_image incoming * 512) ps Hpos).
    lia.
  - intros payload. do 4 eexists. vm_compute. repeat split; reflexivity.
Qed.

Lemma write_stitch_image_size_field_witness :
  write_stitch_image image_1_page 1024 2 sample_world
    = Ret 0 (sample_after image_1_page 1024 2 sample_world) /\
  exists t stored,
    submitted (sample_after image_1_page 1024 2 sample_world) = [t] /\
    desc_at t 2 = Some stored /\
    size_of_os_image stored = 1 * 512 / 2 + 1.
Proof.
  assert (Hrun : write_stitch_image image_1_page 1024 2 sample_world
                 = Ret 0 (sample_after image_1_page 1024 2 sample_world))
    by (vm_compute; reflexivity).
  split; [exact Hrun|].
  destruct (proj1 write_stitch_image_size_field image_1_page 1024 2
              sample_world _ (declares 1) Hrun eq_refl)
    as (bs & ps & w1 & w2 & t & stored & Hbs & Hps & Hs & Hat & Hsz);
    [vm_compute; discriminate | reflexivity | reflexivity |].
  exists t, stored. split; [exact Hs|]. split; [exact Hat|].
  assert (Hp : ps = 2).
  { vm_compute in Hbs. inversion Hbs; subst w1. vm_compute in Hps.
    inversion Hps. reflexivity. }
  subst ps. destruct Hsz as [Hsz _]; [lia | exact Hsz].
Defined.

Lemma OSIP_SIG_bytes : le32 0x24 0x4f 0x53 0x24 = OSIP_SIG.
Proof. reflexivity. Qed.

(** C5.  When the open and the read of the device succeed and the record
    read at the primary location does not carry the signature "$OS$",
    read_OSIP_loc still returns 1 with the record as read: the only effect of
    the mismatch is the line "Invalid OSIP header detected!"; nothing is
    dumped and the device is as it was. *)
Theorem read_OSIP_loc_bad_signature dump w :
  sig (mmc_osip w) <> OSIP_SIG ->
  calls_succeed 2 w = true ->
  exists w',
    read_OSIP_loc R_START dump w = Ret (1, mmc_osip w) w' /\
    trace w' = trace w ++
      [Dprintf INFO "**************into read_OSIP*********************";
       Printf "Invalid OSIP header detected!"] /\
    same_device w w'.
Proof.
  intros Hsig Hok.
  assert (Hne : (sig (mmc_osip w) =? OSIP_SIG) = false)
    by (apply Z.eqb_neq; exact Hsig).
  unfold read_OSIP_loc, R_START, bind, emit, syscall, get_world, ret,
    calls_succeed in *.
  destruct w as [es t bk pl fs tr]. simpl in *.
  destruct fs as [|f1 [|f2 fs]]; simpl in *;
    repeat match goal with
           | H : context [negb ?f && _] |- _ => destruct f; simpl in H
           end;
    try discriminate; simpl;
    rewrite Hne; simpl; rewrite andb_false_r; simpl;
    rewrite <- app_assoc; simpl;
    (eexists; split; [reflexivity|]; split; [reflexivity|]);
    repeat split.
Qed.

Lemma read_OSIP_loc_bad_signature_witness :
  sig (mmc_osip blank_world) <> OSIP_SIG /\
  exists w',
    read_OSIP_loc R_START NOT_DUMP blank_world
      = Ret (1, mmc_osip blank_world) w' /\
    trace w' =
      [Dprintf INFO "**************into read_OSIP*********************";
       Printf "Invalid OSIP header detected!"].
Proof.
  assert (Hsig : sig (mmc_osip blank_world) <> OSIP_SIG)
    by (vm_compute; discriminate).
  split; [exact Hsig|].
  destruct (read_OSIP_loc_bad_signature NOT_DUMP blank_world Hsig eq_refl)
    as (w' & Hrun & Htr & _).
  exists w'. split; [exact Hrun | exact Htr].
Defined.

(** X8.  Where the declared length fits a 32-bit size the length check of
    write_stitch_image is exact: any other length is turned down with -1
    before the device is touched. *)
Lemma write_stitch_image_rejects data size update_number w incoming r w' :
  leading_block data = Some incoming ->
  0 <= size_of_os_image incoming ->
  size_of_os_image incoming * 512 + 512 < 2 ^ 32 ->
  0 <= size < 2 ^ 32 ->
  size <> size_of_os_image incoming * 512 + 512 ->
  write_stitch_image data size update_number w = Ret r w' ->
  r = -1 /\ quiet w w'.
Proof.
  intros Hl Hp Hfit Hsize Hne H.
  assert (Hcheck :
    negb (u32 (size_of_os_image incoming * STITCHED_IMAGE_PAGE_SIZE)
          =? u32 (size - STITCHED_IMAGE_BLOCK_SIZE)) = true).
  { apply negb_true_iff, Z.eqb_neq.
    unfold STITCHED_IMAGE_PAGE_SIZE, STITCHED_IMAGE_BLOCK_SIZE.
    rewrite (u32_small (_ * 512)) by lia.
    destruct (Z_lt_le_dec size 512).
    - unfold u32.
      replace ((size - 512) mod 2 ^ 32) with (size - 512 + 2 ^ 32)
        by (apply Z.mod_unique with (q := -1); lia).
      lia.
    - rewrite u32_small by lia. lia. }
  unfold write_stitch_image, crack_stitched_image in H. rewrite Hl in H.
  repeat step;
    try match goal with
        | H : false = true |- _ => discriminate H
        end;
    (split; [reflexivity|]);
    repeat match goal with
           | H : get_block_size _ = Ret _ _ |- _ =>
               apply get_block_size_inv in H
           | H : get_page_size _ = Ret _ _ |- _ =>
               apply get_page_size_quiet in H
           end;
    quiet_tac.
Qed.

(** C2.  The blob [image_wrapped] declares 0x800001 pages and is 1024 bytes
    long: the length is not 0x800001 * 512 + 512, yet write_stitch_image
    returns 0, and both the table and the payload area of the device
    changed.  The product in the length check wraps modulo 2^32. *)
Theorem write_stitch_image_length_check_wraps :
  exists incoming w',
    leading_block image_wrapped = Some incoming /\
    1024 <> size_of_os_image incoming * 512 + 512 /\
    write_stitch_image image_wrapped 1024 2 sample_world = Ret 0 w' /\
    mmc_osip w' <> mmc_osip sample_world /\
    mmc_payload w' <> mmc_payload sample_world.
Proof.
  exists (declares 0x800001),
    (sample_after image_wrapped 1024 2 sample_world).
  split; [reflexivity|]. split; [vm_compute; discriminate|].
  split; [vm_compute; reflexivity|].
  split; vm_compute; discriminate.
Qed.

(** C3.  In [world_table_write_fails] the write of the table inside
    write_OSIP fails: the table handed over is not on the device afterwards.
    write_stitch_image goes on all the same: it opens the device, writes the
    payload at the slot's start block and returns 0. *)
Theorem write_stitch_image_ignores_write_OSIP :
  exists t w',
    write_stitch_image image_1_page 1024 2 world_table_write_fails
      = Ret 0 w' /\
    submitted w' = [t] /\
    mmc_osip w' <> t /\
    mmc_osip w' = mmc_osip world_table_write_fails /\
    mmc_payload w'
      = [mkRawWrite (3000 * 2) (following image_1_page) 512].
Proof.
  eexists. eexists. split; [vm_compute; reflexivity|].
  split; [vm_compute; reflexivity|].
  split; [vm_compute; discriminate|].
  split; vm_compute; reflexivity.
Qed.

(** *** Further properties of update_osip.c *)

(** X1.  get_block_size and get_page_size agree in every state: the multiplier
    MMC_PAGES_PER_BLOCK is 1 and the page size fits an int. *)
Theorem get_block_size_is_page_size w : get_block_size w = get_page_size w.
Proof.
  unfold get_block_size, bind.
  destruct (get_page_size w) as [v w'|] eqn:E; [|reflexivity].
  unfold ret. f_equal. unfold MMC_PAGES_PER_BLOCK. rewrite Z.mul_1_r.
  apply s32_small. pose proof (get_page_size_range _ _ _ E).
  unfold INT_MIN, INT_MAX. lia.
Qed.

Lemma calls_succeed_2 w :
  calls_succeed 2 w = true ->
  exists w1 w2, syscall w = Ret false w1 /\ syscall w1 = Ret false w2 /\
    erase_size w2 = erase_size w /\ mmc_osip w2 = mmc_osip w /\
    mmc_backup w2 = mmc_backup w /\ mmc_payload w2 = mmc_payload w /\
    trace w2 = trace w /\ erase_size w1 = erase_size w /\
    faults w2 = drop 2 (faults w).
Proof.
  unfold calls_succeed, syscall. destruct w as [es t bk pl fs tr]. simpl.
  destruct fs as [|[] [|[] fs]]; simpl; try discriminate; intros _;
    do 2 eexists; repeat split.
Qed.

(** X2.  An open or read of the attribute file that fails makes get_page_size
    return -1 before the buffer is looked at, whatever the file holds. *)
Theorem get_page_size_io_failure w :
  calls_succeed 2 w = false ->
  exists w', get_page_size w = Ret (-1) w' /\ quiet w w'.
Proof.
  unfold calls_succeed, get_page_size, bind, syscall, emit, ret.
  destruct w as [es t bk pl fs tr]. simpl.
  destruct fs as [|[] [|[] fs]]; simpl; try discriminate; intros _;
    eexists; (split; [reflexivity|]); repeat split;
    unfold submitted; simpl; rewrite submitted_in_app; simpl;
    apply app_nil_r.
Qed.

Lemma get_page_size_io_failure_witness :
  exists w', get_page_size world_page_query_fails = Ret 2 w' /\
  exists w'', get_page_size w' = Ret (-1) w'' /\ quiet w' w''.
Proof.
  eexists. split; [vm_compute; reflexivity|].
  apply get_page_size_io_failure. reflexivity.
Defined.

(** **** Strings *)

Lemma substring_whole n : forall s,
  (String.length s <= n)%nat -> substring 0 n s = s.
Proof.
  induction n as [|n IH]; intros [|c s] H; simpl in *; try reflexivity.
  - lia.
  - rewrite IH by lia. reflexivity.
Qed.

Lemma substring_length n : forall s,
  (n <= String.length s)%nat -> String.length (substring 0 n s) = n.
Proof.
  induction n as [|n IH]; intros [|c s] H; simpl in *; try reflexivity.
  - lia.
  - rewrite IH by lia. reflexivity.
Qed.

Lemma c_str_no_nul s : has_nul s = false -> c_str s = s.
Proof.
  induction s as [|c s IH]; simpl; [reflexivity|].
  intros H. apply orb_false_elim in H as [Hc Hs]. rewrite Hc, IH by exact Hs.
  reflexivity.
Qed.

Lemma length_append s t :
  String.length (s +:+ t) = (String.length s + String.length t)%nat.
Proof. induction s as [|c s IH]; simpl; [reflexivity | rewrite IH; reflexivity]. Qed.

Lemma has_nul_append s t : has_nul (s +:+ t) = has_nul s || has_nul t.
Proof.
  induction s as [|c s IH]; simpl; [reflexivity|].
  rewrite IH, orb_assoc. reflexivity.
Qed.

Lemma digit_cases d : 0 <= d <= 9 ->
  d = 0 \/ d = 1 \/ d = 2 \/ d = 3 \/ d = 4 \/ d = 5 \/ d = 6 \/ d = 7 \/
  d = 8 \/ d = 9.
Proof. lia. Qed.

Ltac by_digit d H :=
  destruct (digit_cases d H) as [->|[->|[->|[->|[->|[->|[->|[->|[->| ->]]]]]]]]].

Lemma digit_char_facts d : 0 <= d <= 9 ->
  isdigit (digit_char d) = true /\ digit_val (digit_char d) = d /\
  is_nul (digit_char d) = false /\ isspace (digit_char d) = false.
Proof. intros H. by_digit d H; repeat split; reflexivity. Qed.

Lemma length_decimal ds : String.length (decimal ds) = length ds.
Proof. induction ds as [|d ds IH]; simpl; [reflexivity | rewrite IH; reflexivity]. Qed.

Lemma has_nul_decimal ds :
  Forall (fun d => 0 <= d <= 9) ds -> has_nul (decimal ds) = false.
Proof.
  induction 1 as [|d ds Hd _ IH]; simpl; [reflexivity|].
  destruct (digit_char_facts d Hd) as (_ & _ & -> & _). exact IH.
Qed.

Lemma scan_digits_decimal ds : forall acc rest,
  Forall (fun d => 0 <= d <= 9) ds ->
  starts_with_digit rest = false ->
  scan_digits (decimal ds +:+ rest) acc
    = fold_left (fun acc d => 10 * acc + d) ds acc.
Proof.
  induction ds as [|d ds IH]; intros acc rest Hds Hrest; simpl.
  - destruct rest as [|c rest]; [reflexivity|]. simpl in *. rewrite Hrest.
    reflexivity.
  - inversion Hds as [|? ? Hd Hds']; subst.
    destruct (digit_char_facts d Hd) as (-> & -> & _). apply IH; assumption.
Qed.

Lemma fold_decimal_bounds ds : forall acc,
  Forall (fun d => 0 <= d <= 9) ds -> 0 <= acc ->
  0 <= fold_left (fun acc d => 10 * acc + d) ds acc.
Proof.
  induction ds as [|d ds IH]; intros acc Hds Hacc; simpl; [exact Hacc|].
  inversion Hds; subst. apply IH; [assumption | lia].
Qed.

Lemma sscanf_d_decimal ds rest :
  ds <> [] -> Forall (fun d => 0 <= d <= 9) ds ->
  starts_with_digit rest = false ->
  decimal_value ds <= INT_MAX ->
  sscanf_d (decimal ds +:+ rest) = Converted (decimal_value ds).
Proof.
  intros Hne Hds Hrest Hmax.
  pose proof (scan_digits_decimal ds 0 rest Hds Hrest) as Hscan.
  pose proof (fold_decimal_bounds ds 0 Hds ltac:(lia)) as Hpos.
  fold (decimal_value ds) in Hscan, Hpos.
  assert (Hint : in_int (decimal_value ds) = Converted (decimal_value ds)).
  { unfold in_int, INT_MIN, INT_MAX in *.
    destruct (Z.leb_spec (- 2 ^ 31) (decimal_value ds)); [|lia].
    destruct (Z.leb_spec (decimal_value ds) (2 ^ 31 - 1)); [|lia].
    reflexivity. }
  destruct ds as [|d ds]; [contradiction|].
  inversion Hds as [|? ? Hd _]; subst.
  unfold sscanf_d. rewrite <- Hint, <- Hscan. clear Hscan Hint Hpos Hmax.
  simpl decimal. simpl append.
  by_digit d Hd; reflexivity.
Qed.

(** X3.  With open and read succeeding and the attribute holding a decimal number
    of at most 14 digits that fits an int, followed by a line feed,
    get_page_size returns that number divided by 1024 and leaves the device
    alone. *)
Theorem get_page_size_decimal ds w :
  ds <> [] ->
  Forall (fun d => 0 <= d <= 9) ds ->
  (length ds <= 14)%nat ->
  decimal_value ds <= INT_MAX ->
  calls_succeed 2 w = true ->
  erase_size w = (decimal ds +:+ newline) ->
  exists w', get_page_size w = Ret (decimal_value ds / 1024) w' /\ quiet w w'.
Proof.
  intros Hne Hds Hlen Hmax Hok Hattr.
  destruct (calls_succeed_2 w Hok)
    as (w1 & w2 & H1 & H2 & He & Ho & Hb & Hp & Ht & _).
  assert (Hbuf : read_buf16 (decimal ds +:+ newline) = Some (decimal ds +:+ newline)).
  { unfold read_buf16.
    assert (Hl : (String.length (decimal ds +:+ newline) <= 15)%nat)
      by (rewrite length_append, length_decimal; simpl; lia).
    rewrite substring_whole by lia.
    destruct (Nat.ltb_spec (String.length (decimal ds +:+ newline)) 16); [|lia].
    simpl. rewrite c_str_no_nul; [reflexivity|].
    rewrite has_nul_append, has_nul_decimal by exact Hds. reflexivity. }
  unfold get_page_size, bind. rewrite H1, H2. unfold get_world.
  rewrite He, Hattr, Hbuf. unfold emit, ret.
  rewrite sscanf_d_decimal by (assumption || reflexivity).
  pose proof (fold_decimal_bounds ds 0 Hds ltac:(lia)) as Hpos.
  fold (decimal_value ds) in Hpos.
  unfold KBYTES. rewrite Z.quot_div_nonneg by lia.
  eexists. split; [reflexivity|].
  repeat split; simpl; try assumption.
  unfold submitted. simpl. rewrite submitted_in_app, Ht. simpl. apply app_nil_r.
Qed.

Lemma get_page_size_decimal_witness :
  exists w', get_page_size sample_world = Ret (2048 / 1024) w' /\
             quiet sample_world w'.
Proof.
  apply (get_page_size_decimal [2; 0; 4; 8] sample_world).
  - discriminate.
  - repeat constructor; lia.
  - simpl. lia.
  - vm_compute. discriminate.
  - reflexivity.
  - reflexivity.
Defined.

(** X4.  When the attribute file holds 16 bytes or more and none of the first 16
    is NUL, the 16-byte buffer is filled to the brim: get_page_size hands an
    unterminated buffer to "%s" and to sscanf, which is undefined. *)
Theorem get_page_size_unterminated w :
  calls_succeed 2 w = true ->
  (16 <= String.length (erase_size w))%nat ->
  has_nul (substring 0 16 (erase_size w)) = false ->
  get_page_size w = Undef.
Proof.
  intros Hok Hlen Hnul.
  destruct (calls_succeed_2 w Hok) as (w1 & w2 & H1 & H2 & He & _).
  unfold get_page_size, bind. rewrite H1, H2. unfold get_world. rewrite He.
  unfold read_buf16. rewrite substring_length by exact Hlen. rewrite Hnul.
  reflexivity.
Qed.

Lemma get_page_size_unterminated_witness :
  get_page_size
    (mkWorld "1073741824000000" sample_table sample_table [] [] []) = Undef.
Proof.
  apply get_page_size_unterminated; [reflexivity | simpl; lia | reflexivity].
Defined.

Lemma dumped_in_app tr1 tr2 :
  dumped_in (tr1 ++ tr2) = dumped_in tr1 ++ dumped_in tr2.
Proof.
  induction tr1 as [|e tr1 IH]; [reflexivity|].
  destruct e; simpl; rewrite IH; reflexivity.
Qed.

(** X5.  read_OSIP_loc always returns, and never changes the device.  It returns
    1 with the record at the location asked for (offset 0, or BACKUP_LOC when
    [location] is not 0) exactly when its open and its read succeed, and -1
    with the record still zeroed otherwise; the header is dumped only when
    [dump] is set, the read succeeded and the signature is the right one. *)
Theorem read_OSIP_loc_result location dump w :
  exists r t w',
    read_OSIP_loc location dump w = Ret (r, t) w' /\
    quiet w w' /\
    (if calls_succeed 2 w
     then r = 1 /\ t = (if location =? 0 then mmc_osip w else mmc_backup w)
     else r = -1 /\ t = zeroed_header) /\
    dumped w' = dumped w ++
      (if calls_succeed 2 w && negb (dump =? 0) && (sig t =? OSIP_SIG)
       then [t] else []).
Proof.
  unfold read_OSIP_loc, calls_succeed, bind, syscall, emit, get_world, ret,
    quiet, same_device, submitted, dumped, zeroed_header.
  destruct w as [es t bk pl fs tr]. simpl.
  destruct (location =? 0); simpl;
    (destruct fs as [|[] [|[] fs]]; simpl;
     try (do 3 eexists; split; [reflexivity|]; simpl;
          rewrite ?submitted_in_app, ?dumped_in_app; simpl;
          rewrite ?app_nil_r; repeat split; reflexivity)).
  all: match goal with
       | |- context [sig ?h =? OSIP_SIG] => destruct (sig h =? OSIP_SIG) eqn:Hs
       end; simpl;
       destruct (dump =? 0); simpl;
       do 3 eexists; (split; [reflexivity|]); simpl;
       rewrite ?submitted_in_app, ?dumped_in_app; simpl;
       rewrite ?submitted_in_app, ?dumped_in_app; simpl;
       rewrite ?Hs, ?app_nil_r; repeat split; reflexivity.
Qed.

(** What the calls inside a run did to the device. *)
Ltac run_facts :=
  repeat match goal with
  | H : read_OSIP_loc R_START _ _ = Ret _ _ |- _ =>
      apply read_OSIP_loc_inv in H; destruct H as [? ?]
  | H : get_block_size _ = Ret _ _ |- _ => apply get_block_size_inv in H
  | H : get_page_size _ = Ret _ _ |- _ => apply get_page_size_quiet in H
  | H : write_OSIP _ _ = Ret _ _ |- _ =>
      apply write_OSIP_inv in H; destruct H as (? & ? & ? & ? & ?)
  | H : store_payload _ _ = Ret _ _ |- _ =>
      apply store_payload_inv in H; subst
  end;
  to_quiet; open_quiet.

(** X6.  write_stitch_image returns 0 or -1 and nothing else.  As long as it has
    not entered write_OSIP it has not touched the device, and then it
    returns -1; otherwise it entered write_OSIP once and added at most one
    payload write.  The table on the device is then the one handed over or
    the old one, as that payload write left it: both lie on the same device,
    and a payload write that reaches into the table changes it. *)
Theorem write_stitch_image_outcomes data size update_number w r w' :
  write_stitch_image data size update_number w = Ret r w' ->
  (r = 0 \/ r = -1) /\
  ((r = -1 /\ quiet w w') \/
   (exists t h,
      submitted w' = submitted w ++ [t] /\
      (h = t \/ h = mmc_osip w) /\
      ((mmc_osip w' = h /\ mmc_payload w' = mmc_payload w) \/
       exists p, mmc_osip w' = lay_over 0 p h /\
                 mmc_payload w' = mmc_payload w ++ [p]))).
Proof.
  unfold write_stitch_image. intros H.
  repeat step; (split; [auto|]); run_facts.
  all: try (left; split; [reflexivity|];
            unfold quiet, same_device; repeat split; congruence).
  all: right;
       match goal with
       | Hs : submitted _ = submitted _ ++ [?t],
         Hw : _ /\ mmc_osip ?x = _ \/ _ /\ mmc_osip ?x = _ |- _ =>
           exists t, (mmc_osip x)
       end;
       unfold submitted in *;
       cbn [erase_size mmc_osip mmc_backup mmc_payload faults trace] in *.
  all: (split; [congruence|]).
  all: split;
       [ match goal with
         | Hw : _ /\ _ \/ _ /\ _ |- _ =>
             destruct Hw as [[_ Hw]|[_ Hw]]; [left | right]; congruence
         end |].
  all: try (left; split; congruence).
  all: try match goal with
           | H : (?x <? ?x) = true |- _ =>
               rewrite Z.ltb_irrefl in H; discriminate H
           end.
  all: right; eexists; split;
       [ match goal with
         | |- lay_over 0 _ ?a = lay_over 0 _ ?b =>
             replace a with b by congruence; reflexivity
         end |].
  all: repeat match goal with
              | H : mmc_payload _ = _ |- _ => rewrite H; clear H
              end;
       reflexivity.
Qed.

Lemma write_stitch_image_outcomes_witness :
  exists t,
    submitted (sample_after image_1_page 1024 2 world_table_write_fails) = [t].
Proof.
  destruct (write_stitch_image_outcomes image_1_page 1024 2
              world_table_write_fails 0
              (sample_after image_1_page 1024 2 world_table_write_fails))
    as [_ [[Hr _] | (t & h & Ht & _)]];
    [vm_compute; reflexivity | discriminate Hr | exists t; exact Ht].
Defined.

Lemma write_stitch_image_rejects_witness :
  exists w', write_stitch_image image_1_page 1000 2 sample_world = Ret (-1) w'
             /\ quiet sample_world w'.
Proof.
  eexists. split; [vm_compute; reflexivity|].
  refine (proj2 (write_stitch_image_rejects image_1_page 1000 2 sample_world
                   (declares 1) (-1) _ eq_refl _ _ _ _ _));
    [simpl; lia | simpl; lia | lia | lia | vm_compute; reflexivity].
Defined.

(** X9.  A run of write_stitch_image that returns 0 on a blob shorter than 2 GiB
    has written the payload once: the bytes after the leading block, size -
    512 of them.  The write starts at the start block the device recorded
    for the slot times the block size (modulo 2^32) where that is below 2^31.
    Where it is not, the offset does not fit the signed 32-bit file offset:
    the seek fails, its result is not looked at, and the write starts at
    offset 0, where the device was opened. *)
Theorem write_stitch_image_payload data size update_number w w' :
  write_stitch_image data size update_number w = Ret 0 w' ->
  512 <= size < 2 ^ 31 + 512 ->
  exists old block_size w1,
    desc_at (mmc_osip w) update_number = Some old /\
    get_block_size w = Ret block_size w1 /\
    mmc_payload w' = mmc_payload w ++
      [mkRawWrite (if u32 (logical_start_block old * block_size) <? 2 ^ 31
                   then u32 (logical_start_block old * block_size) else 0)
                  (following data) (size - 512)].
Proof.
  intros H Hsize.
  assert (Hcount : u32 (size - STITCHED_IMAGE_BLOCK_SIZE) = size - 512)
    by (unfold STITCHED_IMAGE_BLOCK_SIZE; apply u32_small; lia).
  assert (Hs : s32 (size - 512) = size - 512)
    by (apply s32_small; unfold INT_MIN, INT_MAX; lia).
  apply write_stitch_image_ok in H.
  destruct H as (osii & blob & old & bs & ps & w1 & w2
                 & _ & _ & Hbs & _ & Hold & _ & _ & h & _ & _ & Hdev).
  destruct Hdev as [[_ Hp] | (_ & _ & Hneg & _)].
  - exists old, bs, w1. split; [exact Hold|]. split; [exact Hbs|].
    rewrite Hp. unfold payload_write. rewrite lseek_set_u32, Hcount.
    reflexivity.
  - rewrite Hcount, Hs in Hneg. lia.
Qed.

Lemma write_stitch_image_payload_witness :
  mmc_payload (sample_after image_1_page 1024 2 sample_world)
    = [mkRawWrite (3000 * 2) (following image_1_page) 512].
Proof.
  destruct (write_stitch_image_payload image_1_page 1024 2 sample_world
              (sample_after image_1_page 1024 2 sample_world))
    as (old & bs & w1 & Hold & Hbs & Hp);
    [vm_compute; reflexivity | lia |].
  rewrite Hp. vm_compute in Hold, Hbs. inversion Hold. inversion Hbs.
  reflexivity.
Defined.

Lemma u32_pages_bound p : u32 (p * STITCHED_IMAGE_PAGE_SIZE) <= 2 ^ 32 - 512.
Proof.
  unfold u32, STITCHED_IMAGE_PAGE_SIZE.
  change (2 ^ 32) with (2 ^ 23 * 512).
  rewrite Zmult_mod_distr_r.
  pose proof (Z.mod_pos_bound p (2 ^ 23) ltac:(lia)). lia.
Qed.

(** X10.  Only the block size is tested by write_stitch_image, not the page size
    queried after it.  When the second query fails, the run goes on with
    page_size = -1, which the unsigned division reads as 2^32 - 1: a run that
    returns 0 then stores the size 1, whatever the image declares. *)
Theorem write_stitch_image_page_size_unchecked
    data size update_number w w' block_size w1 w2 :
  write_stitch_image data size update_number w = Ret 0 w' ->
  get_block_size w = Ret block_size w1 ->
  get_page_size w1 = Ret (-1) w2 ->
  exists t stored,
    submitted w' = submitted w ++ [t] /\
    desc_at t update_number = Some stored /\
    size_of_os_image stored = 1.
Proof.
  intros H Hbs Hps. apply write_stitch_image_ok in H.
  destruct H as (osii & blob & old & bs & ps & w1' & w2'
                 & _ & _ & Hbs' & Hps' & Hold & _ & Hsub & _).
  rewrite Hbs in Hbs'. inversion Hbs'; subst bs w1'.
  rewrite Hps in Hps'. inversion Hps'; subst ps w2'.
  cbv zeta in Hsub. do 2 eexists. split; [exact Hsub|].
  split; [apply stitch_desc_slot; exact Hold|].
  simpl size_of_os_image.
  pose proof (u32_pages_bound (size_of_os_image osii)) as Hb.
  assert (0 <= u32 (size_of_os_image osii * STITCHED_IMAGE_PAGE_SIZE))
    by (apply Z.mod_pos_bound; lia).
  change (u32 (-1)) with (2 ^ 32 - 1).
  rewrite Z.div_small by lia. reflexivity.
Qed.

Lemma write_stitch_image_page_size_unchecked_witness :
  exists t stored,
    submitted (sample_after (mkStitched (Some (declares 100)) [])
                            51712 2 world_page_query_fails) = [t] /\
    desc_at t 2 = Some stored /\
    size_of_os_image stored = 1.
Proof.
  refine (write_stitch_image_page_size_unchecked
            (mkStitched (Some (declares 100)) []) 51712 2
            world_page_query_fails _ 2
            (after (get_block_size world_page_query_fails) world_page_query_fails)
            (after (get_page_size
                      (after (get_block_size world_page_query_fails)
                             world_page_query_fails))
                   world_page_query_fails) _ _ _);
    vm_compute; reflexivity.
Defined.

Lemma read_OSIP_loc_succeeds dump w :
  calls_succeed 2 w = true ->
  exists w', read_OSIP_loc R_START dump w = Ret (1, mmc_osip w) w'.
Proof.
  unfold read_OSIP_loc, R_START, calls_succeed, bind, syscall, emit,
    get_world, ret.
  destruct w as [es t bk pl fs tr]. simpl.
  destruct fs as [|[] [|[] fs]]; simpl; try discriminate; intros _;
    destruct (sig t =? OSIP_SIG); simpl; destruct (dump =? 0); simpl;
    eexists; reflexivity.
Qed.

(** X11.  A block size of 0 passes the test "block_size < 0".  With an erase size
    below 1024 both sizes are 0, and a run that gets past the length check
    and reads the table divides by zero. *)
Theorem write_stitch_image_zero_page_size
    data size update_number w w1 w2 incoming old :
  get_block_size w = Ret 0 w1 ->
  get_page_size w1 = Ret 0 w2 ->
  leading_block data = Some incoming ->
  u32 (size_of_os_image incoming * STITCHED_IMAGE_PAGE_SIZE)
    = u32 (size - STITCHED_IMAGE_BLOCK_SIZE) ->
  calls_succeed 2 w2 = true ->
  desc_at (mmc_osip w) update_number = Some old ->
  write_stitch_image data size update_number w = Undef.
Proof.
  intros Hbs Hps Hl Hcheck Hok Hold.
  pose proof (get_page_size_quiet _ _ _ (get_block_size_inv _ _ _ Hbs)) as Q1.
  pose proof (get_page_size_quiet _ _ _ Hps) as Q2.
  set (w3 := after (emit (Dprintf INFO "now into write_stitch_image") w2) w2).
  assert (Hok3 : calls_succeed 2 w3 = true) by exact Hok.
  destruct (read_OSIP_loc_succeeds NOT_DUMP w3 Hok3) as (w4 & Hread).
  assert (Ht : mmc_osip w3 = mmc_osip w).
  { destruct Q1 as [(_ & E1 & _) _]. destruct Q2 as [(_ & E2 & _) _].
    unfold w3. simpl. congruence. }
  assert (Hemit : emit (Dprintf INFO "now into write_stitch_image") w2
                  = Ret tt w3) by reflexivity.
  clearbody w3.
  unfold write_stitch_image, bind. rewrite Hbs, Hps, Hemit.
  unfold crack_stitched_image. rewrite Hl.
  apply Z.eqb_eq in Hcheck.
  simpl. rewrite Hcheck. simpl.
  rewrite Hread. simpl. rewrite Ht, Hold. reflexivity.
Qed.

Lemma write_stitch_image_zero_page_size_witness :
  write_stitch_image image_1_page 1024 2 world_small_erase = Undef.
Proof.
  refine (write_stitch_image_zero_page_size image_1_page 1024 2
            world_small_erase
            (after (get_block_size world_small_erase) world_small_erase)
            (after (get_page_size
                      (after (get_block_size world_small_erase)
                             world_small_erase))
                   world_small_erase)
            (declares 1) (mkOSII 0 1 3000 0x1100000 0x1101000 50 0)
            _ _ _ _ _ _); vm_compute; reflexivity.
Defined.

(** X7.  The slot number is not tested by write_stitch_image.  A run whose
    block size is not negative, that gets past the length check and reads
    the table, uses the number as it is: for a number outside
    0 .. OSII_TOTAL - 1 it reads and then writes osip.desc out of bounds,
    so that no outcome is defined for it. *)
Theorem write_stitch_image_bad_slot
    data size update_number w block_size w1 page_size w2 incoming :
  get_block_size w = Ret block_size w1 ->
  0 <= block_size ->
  get_page_size w1 = Ret page_size w2 ->
  leading_block data = Some incoming ->
  u32 (size_of_os_image incoming * STITCHED_IMAGE_PAGE_SIZE)
    = u32 (size - STITCHED_IMAGE_BLOCK_SIZE) ->
  calls_succeed 2 w2 = true ->
  ~ (0 <= update_number < OSII_TOTAL) ->
  write_stitch_image data size update_number w = Undef.
Proof.
  intros Hbs Hpos Hps Hl Hcheck Hok Hk.
  set (w3 := after (emit (Dprintf INFO "now into write_stitch_image") w2) w2).
  assert (Hok3 : calls_succeed 2 w3 = true) by exact Hok.
  destruct (read_OSIP_loc_succeeds NOT_DUMP w3 Hok3) as (w4 & Hread).
  assert (Hemit : emit (Dprintf INFO "now into write_stitch_image") w2
                  = Ret tt w3) by reflexivity.
  clearbody w3.
  assert (Hnone : desc_at (mmc_osip w3) update_number = None).
  { unfold desc_at.
    destruct (Z.leb_spec 0 update_number), (Z.ltb_spec update_number OSII_TOTAL);
      simpl; try reflexivity.
    exfalso. apply Hk. lia. }
  unfold write_stitch_image, bind. rewrite Hbs, Hps, Hemit.
  apply Z.ltb_ge in Hpos. rewrite Hpos.
  unfold crack_stitched_image. rewrite Hl.
  apply Z.eqb_eq in Hcheck.
  simpl. rewrite Hcheck. simpl.
  rewrite Hread. simpl. rewrite Hnone. reflexivity.
Qed.

Lemma write_stitch_image_bad_slot_witness :
  write_stitch_image image_1_page 1024 7 sample_world = Undef /\
  write_stitch_image image_1_page 1024 (-1) sample_world = Undef.
Proof.
  split.
  - refine (write_stitch_image_bad_slot image_1_page 1024 7 sample_world 2
              (after (get_block_size sample_world) sample_world) 2
              (after (get_page_size
                        (after (get_block_size sample_world) sample_world))
                     sample_world)
              (declares 1) _ _ _ _ _ _ _);
      try (vm_compute; reflexivity); [lia | unfold OSII_TOTAL; lia].
  - refine (write_stitch_image_bad_slot image_1_page 1024 (-1) sample_world 2
              (after (get_block_size sample_world) sample_world) 2
              (after (get_page_size
                        (after (get_block_size sample_world) sample_world))
                     sample_world)
              (declares 1) _ _ _ _ _ _ _);
      try (vm_compute; reflexivity); [lia | unfold OSII_TOTAL; lia].
Defined.

(** X12.  A negative block size, as left by a failed query, ends
    write_stitch_image with -1 before the blob is looked at: the device is
    untouched whatever [data], [size] and [update_number] are. *)
Theorem write_stitch_image_block_size_wrong
    data size update_number w block_size w1 page_size w2 :
  get_block_size w = Ret block_size w1 ->
  block_size < 0 ->
  get_page_size w1 = Ret page_size w2 ->
  exists w',
    write_stitch_image data size update_number w = Ret (-1) w' /\
    quiet w w' /\
    trace w' = trace w2 ++ [Dprintf INFO "now into write_stitch_image";
                            Dprintf CRITICAL "block size wrong"].
Proof.
  intros Hbs Hneg Hps.
  pose proof (get_page_size_quiet _ _ _ (get_block_size_inv _ _ _ Hbs)) as Q1.
  pose proof (get_page_size_quiet _ _ _ Hps) as Q2.
  unfold write_stitch_image, bind. rewrite Hbs, Hps.
  apply Z.ltb_lt in Hneg. unfold emit at 1. rewrite Hneg.
  unfold emit, ret. eexists. split; [reflexivity|].
  split.
  - open_quiet. unfold quiet, same_device, submitted in *. simpl.
    rewrite !submitted_in_app. simpl. rewrite !app_nil_r.
    repeat split; congruence.
  - simpl. rewrite <- app_assoc. reflexivity.
Qed.

Lemma write_stitch_image_block_size_wrong_witness :
  exists w',
    write_stitch_image image_1_page 1024 2
      (mkWorld ("2048" +:+ newline) sample_table sample_table [] [true] [])
      = Ret (-1) w' /\
    mmc_osip w' = sample_table /\ mmc_payload w' = [].
Proof.
  destruct (write_stitch_image_block_size_wrong image_1_page 1024 2
              (mkWorld ("2048" +:+ newline) sample_table sample_table [] [true] [])
              (-1) _ 2 _ ltac:(vm_compute; reflexivity) ltac:(lia)
              ltac:(vm_compute; reflexivity))
    as (w' & Hrun & [(_ & Ho & _ & Hp) _] & _).
  exists w'. split; [exact Hrun|]. split; [exact Ho | exact Hp].
Defined.

End UpdateOsipFacts.

(** ** Facts about droidboot.c *)

Module DroidbootFacts.
Import Droidboot.

Lemma transitions_emit e s :
  transitions (emit e s) = (transitions s + if is_disabled_msg e then 1 else 0)%nat.
Proof.
  unfold transitions, emit. simpl. rewrite List.filter_app, length_app. simpl.
  destruct (is_disabled_msg e); reflexivity.
Qed.

Lemma boots_emit e s :
  boots (emit e s) = (boots s + if is_boot_call e then 1 else 0)%nat.
Proof.
  unfold boots, emit. simpl. rewrite List.filter_app, length_app. simpl.
  destruct (is_boot_call e); reflexivity.
Qed.

Lemma disable_autoboot_enabled s : autoboot_enabled (disable_autoboot s) = 0.
Proof.
  unfold disable_autoboot. destruct (autoboot_enabled s =? 0) eqn:E; simpl.
  - apply Z.eqb_eq. exact E.
  - reflexivity.
Qed.

Lemma disable_autoboot_boots s : boots (disable_autoboot s) = boots s.
Proof.
  unfold disable_autoboot. destruct (autoboot_enabled s =? 0); simpl.
  - reflexivity.
  - rewrite boots_emit. simpl. unfold boots. simpl. lia.
Qed.

Lemma sleep1_boots c s : boots (sleep1 c s) = boots s.
Proof.
  unfold sleep1. destruct c.
  - rewrite disable_autoboot_boots, boots_emit. simpl. lia.
  - rewrite boots_emit. simpl. lia.
Qed.

Lemma countdown_cancelled n : forall others e s i,
  (i < n)%nat -> others !! i = Some true ->
  exists s', countdown n others e s = Returns tt s' /\
             autoboot_enabled s' = 0 /\ boots s' = boots s.
Proof.
  induction n as [|n IH]; intros others e s i Hi Hc; [lia|].
  simpl.
  set (s1 := emit (Dprintf ALWAYS "Automatic boot in %d seconds.") s).
  assert (Hb1 : boots s1 = boots s)
    by (unfold s1; rewrite boots_emit; simpl; lia).
  destruct (autoboot_enabled (sleep1 (hd false others) s1) =? 0) eqn:E.
  - eexists. split; [reflexivity|]. split; [apply Z.eqb_eq; exact E|].
    rewrite sleep1_boots. exact Hb1.
  - destruct others as [|c others]; [discriminate|].
    destruct i as [|i].
    + simpl in Hc. inversion Hc; subst c. simpl in E.
      unfold sleep1 in E. rewrite disable_autoboot_enabled in E. discriminate.
    + simpl in Hc. simpl.
      destruct (IH others e (sleep1 c s1) i ltac:(lia) Hc) as (s' & Hr & He & Hb).
      exists s'. split; [exact Hr|]. split; [exact He|].
      rewrite Hb, sleep1_boots. exact Hb1.
Qed.

(** C7.  If the flag is already clear when the thread starts, or another
    thread calls disable_autoboot during one of the [sleep_time] seconds of
    the countdown, autoboot_thread returns with start_default_kernel never
    entered. *)
Theorem autoboot_thread_cancelled sleep_time others e s :
  autoboot_enabled s = 0 \/
    (exists i, (i < sleep_time)%nat /\ others !! i = Some true) ->
  exists s',
    autoboot_thread sleep_time others e s = Returns tt s' /\
    autoboot_enabled s' = 0 /\
    boots s' = boots s.
Proof.
  intros H. unfold autoboot_thread.
  destruct (autoboot_enabled s =? 0) eqn:E.
  - exists s. split; [reflexivity|]. split; [apply Z.eqb_eq; exact E | reflexivity].
  - destruct H as [H | (i & Hi & Hc)].
    + rewrite H in E. discriminate.
    + eapply countdown_cancelled; eassumption.
Qed.

Lemma autoboot_thread_cancelled_witness :
  exists s',
    autoboot_thread 5 [false; false; true; false; false] boot_ok armed
      = Returns tt s' /\
    autoboot_enabled s' = 0 /\ boots s' = 0%nat.
Proof.
  apply (autoboot_thread_cancelled 5 [false; false; true; false; false]
           boot_ok armed).
  right. exists 2%nat. split; [lia | reflexivity].
Defined.

(** With the flag set and nobody cancelling, the countdown ends in
    start_default_kernel. *)
Lemma countdown_fires n : forall others e s,
  autoboot_enabled s <> 0 ->
  (forall i, (i < n)%nat -> others !! i <> Some true) ->
  exists s', countdown n others e s = start_default_kernel e s' /\
             boots s' = boots s /\ autoboot_enabled s' = autoboot_enabled s.
Proof.
  induction n as [|n IH]; intros others e s Hen Hno.
  - exists s. repeat split.
  - simpl.
    set (s1 := emit (Dprintf ALWAYS "Automatic boot in %d seconds.") s).
    assert (Hhd : hd false others = false).
    { destruct others as [|[] ?]; try reflexivity.
      exfalso. apply (Hno 0%nat); [lia | reflexivity]. }
    rewrite Hhd. unfold sleep1.
    set (s2 := emit (Sleep 1) s1).
    assert (He2 : autoboot_enabled s2 = autoboot_enabled s) by reflexivity.
    assert (Hb2 : boots s2 = boots s)
      by (unfold s2, s1; rewrite !boots_emit; simpl; lia).
    destruct (autoboot_enabled s2 =? 0) eqn:E.
    + apply Z.eqb_eq in E. congruence.
    + destruct (IH (tl others) e s2) as (s' & Hr & Hb & He).
      * congruence.
      * intros i Hi. destruct others as [|c others]; [simpl; rewrite lookup_nil; discriminate|].
        simpl. apply (Hno (S i)). lia.
      * exists s'. split; [exact Hr|]. split; congruence.
Qed.

Lemma boots_start_default_kernel e s :
  boots (state_of (start_default_kernel e s)) = S (boots s).
Proof.
  unfold start_default_kernel, die.
  destruct (mount_partition e), (asprintf_kernel e), (asprintf_ramdisk e),
    (asprintf_cmdline e); simpl; rewrite ?boots_emit; simpl; try lia.
  destruct (kexec_linux e) as [r|]; [destruct (r =? 0)|]; simpl;
    rewrite boots_emit; simpl; lia.
Qed.

Lemma autoboot_thread_fires sleep_time others e s :
  autoboot_enabled s <> 0 ->
  (forall i, (i < sleep_time)%nat -> others !! i <> Some true) ->
  boots (state_of (autoboot_thread sleep_time others e s)) = S (boots s).
Proof.
  intros Hen Hno. unfold autoboot_thread.
  apply Z.eqb_neq in Hen as Hb. rewrite Hb.
  destruct (countdown_fires sleep_time others e s Hen Hno) as (s' & -> & <- & _).
  apply boots_start_default_kernel.
Qed.

Lemma once_refl s : once s s.
Proof.
  split; intros H; [split; [exact H | reflexivity] | left; split; reflexivity].
Qed.

Lemma once_trans s1 s2 s3 : once s1 s2 -> once s2 s3 -> once s1 s3.
Proof.
  intros [Ha Hb] [Hc Hd]. split.
  - intros H. destruct (Ha H) as [H2 T2]. destruct (Hc H2) as [H3 T3].
    split; congruence.
  - intros H. destruct (Hb H) as [[E T] | [E T]].
    + destruct (Hd ltac:(congruence)) as [[E' T'] | [E' T']].
      * left. split; congruence.
      * right. split; congruence.
    + destruct (Hc E) as [E' T']. right. split; congruence.
Qed.

Lemma once_emit e s : is_disabled_msg e = false -> once s (emit e s).
Proof.
  intros He. pose proof (transitions_emit e s) as Ht. rewrite He in Ht.
  split; intros; [split | left; split]; simpl; try assumption; lia.
Qed.

Lemma once_disable_autoboot s : once s (disable_autoboot s).
Proof.
  unfold disable_autoboot.
  destruct (autoboot_enabled s =? 0) eqn:E; simpl.
  - apply once_refl.
  - apply Z.eqb_neq in E. split; [intros H; contradiction|].
    intros _. right. split; [reflexivity|].
    rewrite transitions_emit. simpl. unfold transitions. simpl. lia.
Qed.

(** Chains of [emit] and [disable_autoboot]. *)
Ltac once_chain :=
  repeat first
    [ apply once_refl
    | eapply once_trans; [|apply once_emit; reflexivity]
    | eapply once_trans; [|apply once_disable_autoboot] ].

Lemma once_start_default_kernel e s :
  once s (state_of (start_default_kernel e s)).
Proof.
  unfold start_default_kernel, die.
  destruct (mount_partition e), (asprintf_kernel e), (asprintf_ramdisk e),
    (asprintf_cmdline e); simpl; try once_chain.
  destruct (kexec_linux e) as [r|]; [destruct (r =? 0)|]; simpl; once_chain.
Qed.

Lemma once_sleep1 c s : once s (sleep1 c s).
Proof. unfold sleep1. destruct c; once_chain. Qed.

Lemma once_countdown n : forall others e s,
  once s (state_of (countdown n others e s)).
Proof.
  induction n as [|n IH]; intros others e s; simpl.
  - apply once_start_default_kernel.
  - match goal with
    | |- context [sleep1 ?c ?s1] =>
        assert (H1 : once s (sleep1 c s1))
          by (eapply once_trans; [|apply once_sleep1]; once_chain);
        destruct (autoboot_enabled (sleep1 c s1) =? 0); simpl;
        [exact H1 | eapply once_trans; [exact H1 | apply IH]]
    end.
Qed.

Lemma once_autoboot_thread n others e s :
  once s (state_of (autoboot_thread n others e s)).
Proof.
  unfold autoboot_thread. destruct (autoboot_enabled s =? 0); simpl.
  - apply once_refl.
  - apply once_countdown.
Qed.

Lemma once_open_event_node fs devname rfds max_fd s :
  once s (open_event_node fs devname rfds max_fd s).2.
Proof.
  unfold open_event_node. destruct (open_fd fs devname <? 0); simpl; once_chain.
Qed.

Lemma once_scan_dir fs names : forall rfds max_fd s,
  once s (state_of (scan_dir fs names rfds max_fd s)).
Proof.
  induction names as [|d_name rest IH]; intros rfds max_fd s; simpl.
  - apply once_refl.
  - destruct (is_dot d_name); [apply IH|].
    destruct (stat_ischr fs (filename_of d_name)) as [[]|]; simpl.
    + pose proof (once_open_event_node fs (filename_of d_name) rfds max_fd s) as Ho.
      destruct (open_event_node fs (filename_of d_name) rfds max_fd s)
        as [[rfds' max_fd'] s'].
      eapply once_trans; [exact Ho | apply IH].
    + apply IH.
    + unfold die. simpl. once_chain.
Qed.

Lemma once_on_event type code s : once s (control_state (on_event type code s)).
Proof.
  unfold on_event.
  destruct (type =? EV_KEY); [destruct (code =? KEY_DOT)|
    destruct ((type =? EV_ABS) || (type =? EV_REL))]; simpl; once_chain.
Qed.

Lemma once_scan_fds indices rfds fds : forall s,
  once s (control_state (scan_fds indices rfds fds s)).
Proof.
  induction indices as [|i rest IH]; intros s; simpl.
  - apply once_refl.
  - destruct (negb (bool_decide (i ∈ rfds))); [apply IH|].
    destruct (fds !! i) as [[deb | type code value]|]; [| |apply IH].
    + eapply once_trans; [|apply IH]. once_chain.
    + match goal with
      | |- context [on_event type code ?s1] =>
          pose proof (once_on_event type code s1) as Hev;
          assert (H1 : once s s1) by once_chain;
          destruct (on_event type code s1) as [s2|s2]; simpl in *
      end.
      * eapply once_trans; [exact H1|]. eapply once_trans; [exact Hev | apply IH].
      * eapply once_trans; [exact H1 | exact Hev].
Qed.

Lemma once_listen selects rfds max_fd : forall s,
  once s (state_of (listen selects rfds max_fd s)).
Proof.
  induction selects as [|fds later IH]; intros s; simpl.
  - apply once_refl.
  - match goal with
    | |- context [scan_fds ?l rfds fds ?s1] =>
        pose proof (once_scan_fds l rfds fds s1) as Hs;
        assert (H1 : once s s1) by once_chain;
        destruct (scan_fds l rfds fds s1) as [s2|s2]; simpl in *
    end.
    + eapply once_trans; [exact H1|]. eapply once_trans; [exact Hs | apply IH].
    + eapply once_trans; [exact H1|]. eapply once_trans; [exact Hs|]. once_chain.
Qed.

Lemma once_input_listener_thread fs selects s :
  once s (state_of (input_listener_thread fs selects s)).
Proof.
  unfold input_listener_thread, exit_listener.
  destruct (readdir fs) as [names|]; simpl; [|once_chain].
  match goal with
  | |- context [scan_dir fs names ?r ?m ?s1] =>
      pose proof (once_scan_dir fs names r m s1) as Hs;
      assert (H1 : once s s1) by once_chain;
      destruct (scan_dir fs names r m s1) as [[rfds max_fd] s2|s2|s2|s2];
      simpl in *; try (eapply once_trans; [exact H1 | exact Hs])
  end.
  destruct (max_fd <? 0); simpl.
  - eapply once_trans; [exact H1|]. eapply once_trans; [exact Hs|]. once_chain.
  - eapply once_trans; [exact H1|]. eapply once_trans; [exact Hs|].
    apply once_listen.
Qed.

Lemma once_run_op o s : once s (state_of (run_op o s)).
Proof.
  destruct o; simpl.
  - apply once_disable_autoboot.
  - apply once_start_default_kernel.
  - apply once_autoboot_thread.
  - apply once_input_listener_thread.
Qed.

Lemma once_run_ops os : forall s, once s (run_ops os s).
Proof.
  induction os as [|o rest IH]; intros s; simpl.
  - apply once_refl.
  - pose proof (once_run_op o s) as Ho.
    destruct (run_op o s); simpl in *;
      first [exact Ho | eapply once_trans; [exact Ho | apply IH]].
Qed.

(** C8.  disable_autoboot does nothing on a clear flag, is idempotent, and
    on a set flag clears it and logs "Autoboot disabled." once; whatever
    operations of the file run afterwards, in whatever number, a clear flag
    stays clear with nothing more logged, and over any sequence of operations
    the line is logged at most once. *)
Theorem disable_autoboot_once :
  (forall s, autoboot_enabled s = 0 -> disable_autoboot s = s) /\
  (forall s, disable_autoboot (disable_autoboot s) = disable_autoboot s) /\
  (forall s, autoboot_enabled s <> 0 ->
     disable_autoboot s
       = mkState 0 (trace s ++ [Dprintf INFO "Autoboot disabled."]) /\
     transitions (disable_autoboot s) = S (transitions s)) /\
  (forall os s, autoboot_enabled s = 0 ->
     autoboot_enabled (run_ops os s) = 0 /\
     transitions (run_ops os s) = transitions s) /\
  (forall os s, (transitions (run_ops os s) <= S (transitions s))%nat).
Proof.
  assert (Hnoop : forall s, autoboot_enabled s = 0 -> disable_autoboot s = s).
  { intros s H. unfold disable_autoboot. rewrite H. reflexivity. }
  split; [exact Hnoop|]. split; [|split; [|split]].
  - intros s. apply Hnoop, disable_autoboot_enabled.
  - intros s H. apply Z.eqb_neq in H. unfold disable_autoboot. rewrite H. simpl.
    split; [reflexivity|].
    rewrite transitions_emit. simpl. unfold transitions. simpl. lia.
  - intros os s H. apply (once_run_ops os s). exact H.
  - intros os s. destruct (once_run_ops os s) as [Ha Hb].
    destruct (Z.eq_dec (autoboot_enabled s) 0) as [E|E].
    + destruct (Ha E) as [_ ->]. lia.
    + destruct (Hb E) as [[_ ->] | [_ ->]]; lia.
Qed.

Lemma disable_autoboot_once_witness :
  disable_autoboot armed = mkState 0 [Dprintf INFO "Autoboot disabled."] /\
  autoboot_enabled
    (run_ops [Op_autoboot_thread 5 [] boot_ok; Op_disable_autoboot]
             (disable_autoboot armed)) = 0 /\
  transitions
    (run_ops [Op_autoboot_thread 5 [] boot_ok; Op_disable_autoboot]
             (disable_autoboot armed)) = 1%nat.
Proof.
  destruct disable_autoboot_once as (_ & _ & Hset & Hstay & _).
  destruct (Hset armed) as [Hd Ht]; [vm_compute; discriminate|].
  split; [exact Hd|].
  destruct (Hstay [Op_autoboot_thread 5 [] boot_ok; Op_disable_autoboot]
                  (disable_autoboot armed)) as [He Hn]; [reflexivity|].
  split; [exact He|]. rewrite Hn. exact Ht.
Defined.

(** C9.  The event read on a readable descriptor decides what the listener
    does next: EV_KEY with KEY_DOT and every type other than EV_KEY, EV_REL
    and EV_ABS leave the flag alone and the loop goes on to the next
    descriptor; any other key and every EV_REL or EV_ABS event call
    disable_autoboot and leave the loop, whereupon the thread returns without
    looking at later input. *)
Theorem input_event_classification i rest rfds (fds : ready) s type code value :
  i ∈ rfds ->
  fds !! i = Some (Input_event type code value) ->
  (type = EV_KEY -> code = KEY_DOT ->
     scan_fds (i :: rest) rfds fds s = scan_fds rest rfds fds (emit read_msg s)) /\
  (type = EV_KEY -> code <> KEY_DOT ->
     scan_fds (i :: rest) rfds fds s
       = Goto_out (disable_autoboot (emit read_msg s))) /\
  (type = EV_REL \/ type = EV_ABS ->
     scan_fds (i :: rest) rfds fds s
       = Goto_out (disable_autoboot (emit read_msg s))) /\
  (type <> EV_KEY -> type <> EV_REL -> type <> EV_ABS ->
     scan_fds (i :: rest) rfds fds s = scan_fds rest rfds fds (emit read_msg s)) /\
  autoboot_enabled (emit read_msg s) = autoboot_enabled s /\
  autoboot_enabled (disable_autoboot (emit read_msg s)) = 0 /\
  (forall later max_fd s0 s2,
     scan_fds (seqZ 0 (max_fd + 1)) rfds fds (emit select_msg s0) = Goto_out s2 ->
     listen (fds :: later) rfds max_fd s0 = exit_listener s2) /\
  (forall later max_fd s0 s2,
     scan_fds (seqZ 0 (max_fd + 1)) rfds fds (emit select_msg s0) = Continue s2 ->
     listen (fds :: later) rfds max_fd s0 = listen later rfds max_fd s2).
Proof.
  intros Hi Hread.
  assert (Hhead : scan_fds (i :: rest) rfds fds s =
                  match on_event type code (emit read_msg s) with
                  | Continue s' => scan_fds rest rfds fds s'
                  | Goto_out s' => Goto_out s'
                  end).
  { simpl. rewrite bool_decide_eq_true_2 by exact Hi. simpl.
    rewrite Hread. reflexivity. }
  rewrite Hhead. unfold on_event, EV_KEY, EV_REL, EV_ABS, KEY_DOT.
  repeat split.
  - intros -> ->. reflexivity.
  - intros -> Hc. simpl. apply Z.eqb_neq in Hc. rewrite Hc. reflexivity.
  - intros [-> | ->]; reflexivity.
  - intros Hk Hr Ha. apply Z.eqb_neq in Hk, Hr, Ha. rewrite Hk, Hr, Ha.
    reflexivity.
  - apply disable_autoboot_enabled.
  - intros later max_fd s0 s2 H. simpl. unfold select_msg in H. rewrite H.
    reflexivity.
  - intros later max_fd s0 s2 H. simpl. unfold select_msg in H. rewrite H.
    reflexivity.
Qed.

Lemma input_event_classification_witness :
  scan_fds [3; 4] {[3; 4]} {[3 := Input_event EV_KEY KEY_DOT 1;
                             4 := Input_event EV_KEY KEY_A 1]} armed
    = Goto_out (disable_autoboot (emit read_msg (emit read_msg armed))).
Proof.
  destruct (input_event_classification 3 [4] {[3; 4]}
              {[3 := Input_event EV_KEY KEY_DOT 1;
                4 := Input_event EV_KEY KEY_A 1]} armed EV_KEY KEY_DOT 1)
    as (Hdot & _); [set_solver | reflexivity |].
  rewrite (Hdot eq_refl eq_refl).
  destruct (input_event_classification 4 [] {[3; 4]}
              {[3 := Input_event EV_KEY KEY_DOT 1;
                4 := Input_event EV_KEY KEY_A 1]} (emit read_msg armed)
              EV_KEY KEY_A 1)
    as (_ & Hkey & _); [set_solver | reflexivity |].
  apply Hkey; [reflexivity | vm_compute; discriminate].
Defined.

Lemma scan_dir_app fs before : forall rest rfds max_fd s,
  scan_dir fs (before ++ rest) rfds max_fd s =
  match scan_dir fs before rfds max_fd s with
  | Returns (rfds', max_fd') s' => scan_dir fs rest rfds' max_fd' s'
  | o => o
  end.
Proof.
  induction before as [|d_name before IH]; intros rest rfds max_fd s; simpl.
  - reflexivity.
  - destruct (is_dot d_name); [apply IH|].
    destruct (stat_ischr fs (filename_of d_name)) as [[]|]; simpl.
    + destruct (open_event_node fs (filename_of d_name) rfds max_fd s)
        as [[rfds' max_fd'] s'].
      apply IH.
    + apply IH.
    + reflexivity.
Qed.

(** C10.  At an entry of the input directory other than "." and "..",
    reached with the entries before it scanned, a failing stat ends the
    process (die), and with it the listener thread; a failing open of a
    character device only logs "Unable to open" and the scan goes on with
    the next entry, descriptor set and maximum unchanged. *)
Theorem stat_failure_dies_open_failure_skips
    fs before d_name rest rfds max_fd s rfds' max_fd' s' :
  scan_dir fs before rfds max_fd s = Returns (rfds', max_fd') s' ->
  is_dot d_name = false ->
  (stat_ischr fs (filename_of d_name) = None ->
     scan_dir fs (before ++ d_name :: rest) rfds max_fd s
       = Dies (emit (Dperror "stat") s') /\
     forall selects s0,
       readdir fs = Some (before ++ d_name :: rest) ->
       rfds = ∅ -> max_fd = -1 -> s = emit begin_msg s0 ->
       input_listener_thread fs selects s0 = Dies (emit (Dperror "stat") s'))
  /\
  (stat_ischr fs (filename_of d_name) = Some true ->
   open_fd fs (filename_of d_name) < 0 ->
     scan_dir fs (before ++ d_name :: rest) rfds max_fd s
       = scan_dir fs rest rfds' max_fd' (emit unable_msg s')).
Proof.
  intros Hbefore Hdot. split.
  - intros Hstat.
    assert (Hdie : scan_dir fs (before ++ d_name :: rest) rfds max_fd s
                   = Dies (emit (Dperror "stat") s')).
    { rewrite scan_dir_app, Hbefore. simpl. rewrite Hdot, Hstat. reflexivity. }
    split; [exact Hdie|].
    intros selects s0 Hdir -> -> ->.
    unfold input_listener_thread. rewrite Hdir.
    unfold begin_msg in Hdie. rewrite Hdie. reflexivity.
  - intros Hstat Hopen.
    rewrite scan_dir_app, Hbefore. simpl. rewrite Hdot, Hstat. simpl.
    unfold open_event_node.
    apply Z.ltb_lt in Hopen. rewrite Hopen. reflexivity.
Qed.

Lemma stat_failure_dies_open_failure_skips_witness :
  (exists s', input_listener_thread stale_fs [] armed = Dies s') /\
  scan_dir sample_fs ["."; ".."; "mice"; "by-path"; "event0"] ∅ (-1) armed
    = scan_dir sample_fs ["by-path"; "event0"] ∅ (-1) (emit unable_msg armed).
Proof.
  split.
  - eexists.
    refine (proj2 (proj1 (stat_failure_dies_open_failure_skips stale_fs
              ["."; ".."; "mice"] "gone" ["event0"] ∅ (-1)
              (emit begin_msg armed) ∅ (-1) _ _ _) _) [] armed _ _ _ _);
      reflexivity.
  - refine (proj2 (stat_failure_dies_open_failure_skips sample_fs
              ["."; ".."] "mice" ["by-path"; "event0"] ∅ (-1) armed
              ∅ (-1) armed _ _) _ _); [reflexivity | reflexivity | reflexivity |].
    vm_compute. reflexivity.
Defined.

(** *** Further properties of droidboot.c *)

Lemma sleeps_emit e s :
  sleeps (emit e s) = (sleeps s + if is_sleep e then 1 else 0)%nat.
Proof.
  unfold sleeps, emit. simpl. rewrite List.filter_app, length_app. simpl.
  destruct (is_sleep e); reflexivity.
Qed.

Lemma sleeps_disable_autoboot s : sleeps (disable_autoboot s) = sleeps s.
Proof.
  unfold disable_autoboot. destruct (autoboot_enabled s =? 0); simpl;
    [reflexivity|].
  rewrite sleeps_emit. simpl. unfold sleeps. simpl. lia.
Qed.

Lemma sleeps_sleep1 c s : sleeps (sleep1 c s) = S (sleeps s).
Proof.
  unfold sleep1. destruct c; rewrite ?sleeps_disable_autoboot, sleeps_emit;
    simpl; lia.
Qed.

Lemma transitions_sleep1_false s : transitions (sleep1 false s) = transitions s.
Proof. unfold sleep1. rewrite transitions_emit. simpl. lia. Qed.

Lemma countdown_runs n : forall others e s,
  autoboot_enabled s <> 0 ->
  (forall i, (i < n)%nat -> others !! i <> Some true) ->
  exists s', countdown n others e s = start_default_kernel e s' /\
             boots s' = boots s /\ autoboot_enabled s' = autoboot_enabled s /\
             sleeps s' = (sleeps s + n)%nat /\ transitions s' = transitions s.
Proof.
  induction n as [|n IH]; intros others e s Hen Hno.
  - exists s. repeat split; lia.
  - simpl.
    set (s1 := emit (Dprintf ALWAYS "Automatic boot in %d seconds.") s).
    assert (Hhd : hd false others = false).
    { destruct others as [|[] ?]; try reflexivity.
      exfalso. apply (Hno 0%nat); [lia | reflexivity]. }
    rewrite Hhd.
    assert (He2 : autoboot_enabled (sleep1 false s1) = autoboot_enabled s)
      by reflexivity.
    assert (Hb2 : boots (sleep1 false s1) = boots s)
      by (rewrite sleep1_boots; unfold s1; rewrite boots_emit; simpl; lia).
    assert (Hs2 : sleeps (sleep1 false s1) = S (sleeps s))
      by (rewrite sleeps_sleep1; unfold s1; rewrite sleeps_emit; simpl; lia).
    assert (Ht2 : transitions (sleep1 false s1) = transitions s)
      by (rewrite transitions_sleep1_false; unfold s1;
          rewrite transitions_emit; simpl; lia).
    destruct (autoboot_enabled (sleep1 false s1) =? 0) eqn:E.
    + apply Z.eqb_eq in E. congruence.
    + destruct (IH (tl others) e (sleep1 false s1)) as (s' & Hr & Hb & He & Hs & Ht).
      * congruence.
      * intros i Hi. destruct others as [|c others];
          [simpl; rewrite lookup_nil; discriminate|].
        simpl. apply (Hno (S i)). lia.
      * exists s'. split; [exact Hr|]. repeat split; try congruence. lia.
Qed.

(** X13.  With the flag set and no cancellation during the first [sleep_time]
    seconds, autoboot_thread sleeps exactly [sleep_time] times and then
    enters start_default_kernel, once, with the flag still set: a
    cancellation that comes later changes nothing. *)
Theorem autoboot_thread_fires_on_time sleep_time others e s :
  autoboot_enabled s <> 0 ->
  (forall i, (i < sleep_time)%nat -> others !! i <> Some true) ->
  exists s',
    autoboot_thread sleep_time others e s = start_default_kernel e s' /\
    sleeps s' = (sleeps s + sleep_time)%nat /\
    autoboot_enabled s' = autoboot_enabled s /\
    boots s' = boots s /\
    boots (state_of (autoboot_thread sleep_time others e s)) = S (boots s).
Proof.
  intros Hen Hno. unfold autoboot_thread.
  apply Z.eqb_neq in Hen as Hb. rewrite Hb.
  destruct (countdown_runs sleep_time others e s Hen Hno)
    as (s' & Hr & Hbo & He & Hs & _).
  exists s'. rewrite Hr. repeat split; try assumption.
  rewrite boots_start_default_kernel. congruence.
Qed.

Lemma autoboot_thread_fires_on_time_witness :
  exists s',
    autoboot_thread 3 [false; false; false; true] boot_ok armed
      = start_default_kernel boot_ok s' /\
    sleeps s' = 3%nat.
Proof.
  destruct (autoboot_thread_fires_on_time 3 [false; false; false; true]
              boot_ok armed) as (s' & Hr & Hs & _).
  - vm_compute. discriminate.
  - intros i Hi. destruct i as [|[|[|i]]]; try discriminate. lia.
  - exists s'. split; [exact Hr | exact Hs].
Defined.

(** X15.  When the countdown runs out and the boot partition cannot be mounted,
    autoboot_thread returns like any other thread function: the process
    goes on, with the flag still set and the failure logged.  When the
    partition mounts and the paths are built but kexec_linux comes back with
    a non-zero result, the process ends in die. *)
Theorem autoboot_thread_boot_fails sleep_time others e s :
  autoboot_enabled s <> 0 ->
  (forall i, (i < sleep_time)%nat -> others !! i <> Some true) ->
  (mount_partition e = false ->
   exists s',
     autoboot_thread sleep_time others e s
       = Returns tt (emit (Dprintf CRITICAL "Can't mount boot partition!") s') /\
     autoboot_enabled s' = autoboot_enabled s /\
     boots s' = S (boots s)) /\
  (mount_partition e = true -> asprintf_kernel e = true ->
   asprintf_ramdisk e = true -> asprintf_cmdline e = true ->
   forall r, kexec_linux e = Some r -> r <> 0 ->
   exists s', autoboot_thread sleep_time others e s = Dies s').
Proof.
  intros Hen Hno. unfold autoboot_thread.
  apply Z.eqb_neq in Hen as Hb. rewrite Hb.
  destruct (countdown_runs sleep_time others e s Hen Hno)
    as (s' & -> & Hbo & He & _).
  unfold start_default_kernel, die. split.
  - intros ->. simpl. eexists. split; [reflexivity|].
    split; [exact He|]. rewrite boots_emit. simpl. lia.
  - intros -> -> -> -> r -> Hr. apply Z.eqb_neq in Hr. rewrite Hr. simpl.
    eexists. reflexivity.
Qed.

Lemma autoboot_thread_boot_fails_witness :
  exists s',
    autoboot_thread 2 [] (mkBootEnv false true true true None) armed
      = Returns tt (emit (Dprintf CRITICAL "Can't mount boot partition!") s') /\
    autoboot_enabled s' = 1.
Proof.
  destruct (autoboot_thread_boot_fails 2 []
              (mkBootEnv false true true true None) armed) as [Hm _].
  - vm_compute. discriminate.
  - intros i _. rewrite lookup_nil. discriminate.
  - destruct (Hm eq_refl) as (s' & Hr & He & _).
    exists s'. split; [exact Hr | exact He].
Defined.

Lemma countdown_first_cancel n : forall others e s i,
  autoboot_enabled s <> 0 ->
  (i < n)%nat -> others !! i = Some true ->
  (forall j, (j < i)%nat -> others !! j <> Some true) ->
  exists s', countdown n others e s = Returns tt s' /\
             autoboot_enabled s' = 0 /\
             sleeps s' = (sleeps s + S i)%nat /\
             boots s' = boots s /\
             transitions s' = S (transitions s).
Proof.
  induction n as [|n IH]; intros others e s i Hen Hi Hc Hfirst; [lia|].
  simpl.
  set (s1 := emit (Dprintf ALWAYS "Automatic boot in %d seconds.") s).
  assert (Hb1 : boots s1 = boots s)
    by (unfold s1; rewrite boots_emit; simpl; lia).
  assert (Hs1 : sleeps s1 = sleeps s)
    by (unfold s1; rewrite sleeps_emit; simpl; lia).
  assert (Ht1 : transitions s1 = transitions s)
    by (unfold s1; rewrite transitions_emit; simpl; lia).
  destruct others as [|c others]; [discriminate|].
  destruct i as [|i].
  - simpl in Hc. inversion Hc; subst c. simpl hd.
    unfold sleep1 at 1. rewrite disable_autoboot_enabled. simpl.
    eexists. split; [reflexivity|].
    split; [apply disable_autoboot_enabled|].
    split; [rewrite sleeps_disable_autoboot, sleeps_emit; simpl; lia|].
    split; [rewrite disable_autoboot_boots, boots_emit; simpl; lia|].
    destruct (once_disable_autoboot (emit (Sleep 1) s1)) as [_ Hset].
    destruct (Hset Hen) as [[Hsame _] | [_ Ht]].
    + rewrite disable_autoboot_enabled in Hsame. simpl in Hsame. congruence.
    + rewrite Ht, transitions_emit. simpl. lia.
  - assert (Hc0 : c = false).
    { destruct c; [|reflexivity]. exfalso. apply (Hfirst 0%nat); [lia|reflexivity]. }
    subst c. simpl hd. simpl tl.
    assert (He2 : autoboot_enabled (sleep1 false s1) = autoboot_enabled s)
      by reflexivity.
    destruct (autoboot_enabled (sleep1 false s1) =? 0) eqn:E.
    + apply Z.eqb_eq in E. congruence.
    + destruct (IH others e (sleep1 false s1) i) as (s' & Hr & He & Hs & Hb & Ht).
      * congruence.
      * lia.
      * exact Hc.
      * intros j Hj. apply (Hfirst (S j)). lia.
      * exists s'. split; [exact Hr|]. split; [exact He|].
        rewrite Hs, Hb, Ht, sleeps_sleep1, sleep1_boots,
          transitions_sleep1_false.
        repeat split; lia.
Qed.

(** X14.  With the flag set at the start and the first cancellation falling into
    second [i] of the countdown (counting from 0), autoboot_thread returns
    right after that second: it has slept [i + 1] times, never entered
    start_default_kernel, and the transition was logged once. *)
Theorem autoboot_thread_cancel_latency sleep_time others e s i :
  autoboot_enabled s <> 0 ->
  (i < sleep_time)%nat ->
  others !! i = Some true ->
  (forall j, (j < i)%nat -> others !! j <> Some true) ->
  exists s',
    autoboot_thread sleep_time others e s = Returns tt s' /\
    autoboot_enabled s' = 0 /\
    sleeps s' = (sleeps s + S i)%nat /\
    boots s' = boots s /\
    transitions s' = S (transitions s).
Proof.
  intros Hen Hi Hc Hfirst. unfold autoboot_thread.
  apply Z.eqb_neq in Hen as Hb. rewrite Hb.
  apply countdown_first_cancel; assumption.
Qed.

Lemma autoboot_thread_cancel_latency_witness :
  exists s',
    autoboot_thread 5 [false; false; true; false; true] boot_ok armed
      = Returns tt s' /\
    autoboot_enabled s' = 0 /\ sleeps s' = 3%nat.
Proof.
  destruct (autoboot_thread_cancel_latency 5 [false; false; true; false; true]
              boot_ok armed 2) as (s' & Hr & He & Hs & _).
  - vm_compute. discriminate.
  - lia.
  - reflexivity.
  - intros j Hj. destruct j as [|[|j]]; try discriminate. lia.
  - exists s'. split; [exact Hr|]. split; [exact He | exact Hs].
Defined.

(** **** The scan of the input directory *)

Lemma open_event_node_spec fs devname rfds max_fd s :
  let fd := open_fd fs devname in
  let r := open_event_node fs devname rfds max_fd s in
  autoboot_enabled r.2 = autoboot_enabled s /\
  transitions r.2 = transitions s /\
  (fd < 0 -> r.1 = (rfds, max_fd)) /\
  (0 <= fd -> r.1 = ({[fd]} ∪ rfds, Z.max fd max_fd)).
Proof.
  unfold open_event_node. simpl.
  destruct (Z.ltb_spec (open_fd fs devname) 0); simpl.
  - rewrite transitions_emit. simpl. repeat split; try lia.
  - rewrite transitions_emit. simpl. repeat split; try lia.
    intros _. f_equal.
    destruct (Z.gtb_spec (open_fd fs devname) max_fd); lia.
Qed.

Lemma scan_dir_returns fs names : forall rfds max_fd s,
  all_stat fs names ->
  exists s',
    scan_dir fs names rfds max_fd s
      = Returns (list_to_set (opened fs names) ∪ rfds,
                 foldr Z.max max_fd (opened fs names)) s' /\
    autoboot_enabled s' = autoboot_enabled s /\
    transitions s' = transitions s.
Proof.
  induction names as [|d_name rest IH]; intros rfds max_fd s Hstat; simpl.
  - exists s. split; [|split; reflexivity]. f_equal. f_equal. set_solver.
  - inversion Hstat as [|? ? Hd Hrest]; subst.
    destruct (is_dot d_name); [apply IH; exact Hrest|].
    destruct (stat_ischr fs (filename_of d_name)) as [[]|] eqn:E.
    + pose proof (open_event_node_spec fs (filename_of d_name) rfds max_fd s)
        as (He & Ht & Hneg & Hpos).
      destruct (open_event_node fs (filename_of d_name) rfds max_fd s)
        as [[rfds1 max1] s1]. simpl in *.
      destruct (Z.ltb_spec (open_fd fs (filename_of d_name)) 0) as [Hlt|Hge].
      * specialize (Hneg Hlt). inversion Hneg; subst.
        destruct (IH rfds max_fd s1 Hrest) as (s' & Hr & He' & Ht').
        exists s'. split; [exact Hr|]. split; congruence.
      * specialize (Hpos Hge). inversion Hpos; subst.
        destruct (IH ({[open_fd fs (filename_of d_name)]} ∪ rfds)
                     (Z.max (open_fd fs (filename_of d_name)) max_fd) s1 Hrest)
          as (s' & Hr & He' & Ht').
        exists s'. split; [|split; congruence].
        rewrite Hr. f_equal. f_equal.
        -- simpl. set_solver.
        -- simpl. clear. induction (opened fs rest) as [|x l IHl]; simpl; lia.
    + apply IH; exact Hrest.
    + exfalso. apply Hd; reflexivity.
Qed.

(** X16.  When stat fails on no entry looked at, the scan of the directory
    returns with exactly the descriptors of the character devices that
    opened added to the set, and with the largest of them and of the
    maximum it started from; "." and ".." are never looked at, and the flag
    is not touched. *)
Theorem scan_dir_opens fs names rfds max_fd s :
  all_stat fs names ->
  exists s',
    scan_dir fs names rfds max_fd s
      = Returns (list_to_set (opened fs names) ∪ rfds,
                 foldr Z.max max_fd (opened fs names)) s' /\
    autoboot_enabled s' = autoboot_enabled s /\
    transitions s' = transitions s.
Proof. apply scan_dir_returns. Qed.

Lemma scan_dir_opens_witness :
  exists s',
    scan_dir sample_fs ["."; ".."; "mice"; "by-path"; "event0"] ∅ (-1) armed
      = Returns ({[3]} ∪ ∅ ∪ ∅, 3) s'.
Proof.
  destruct (scan_dir_opens sample_fs ["."; ".."; "mice"; "by-path"; "event0"]
              ∅ (-1) armed) as (s' & Hr & _).
  - repeat constructor; intros _; vm_compute; discriminate.
  - exists s'. exact Hr.
Defined.

Lemma opened_nonneg fs names : Forall (fun fd => 0 <= fd) (opened fs names).
Proof.
  induction names as [|d rest IH]; simpl; [constructor|].
  destruct (is_dot d); [exact IH|].
  destruct (stat_ischr fs (filename_of d)) as [[]|]; try exact IH.
  destruct (Z.ltb_spec (open_fd fs (filename_of d)) 0); [exact IH|].
  constructor; assumption.
Qed.

Lemma foldr_max_spec (l : list Z) m :
  (forall x, x ∈ l -> x <= foldr Z.max m l) /\
  m <= foldr Z.max m l /\
  (foldr Z.max m l = m \/ foldr Z.max m l ∈ l).
Proof.
  induction l as [|x l (IHa & IHb & IHc)]; simpl.
  - split; [intros x Hx; inversion Hx|]. split; [lia | left; reflexivity].
  - split; [|split].
    + intros y Hy. apply elem_of_cons in Hy as [-> | Hy]; [lia|].
      specialize (IHa y Hy). lia.
    + lia.
    + destruct (Z.max_spec x (foldr Z.max m l)) as [[_ ->] | [_ ->]].
      * destruct IHc as [-> | Hin]; [left; reflexivity | right; right; exact Hin].
      * right. left.
Qed.

(** X17.  What the listener's scan hands to the select loop, starting from the
    empty set and -1: every descriptor in the set lies between 0 and max_fd,
    so the loop over 0 .. max_fd visits each one; max_fd is itself in the
    set unless it is still -1, and it is -1 exactly when nothing opened. *)
Theorem scan_dir_max_fd fs names s rfds max_fd s' :
  scan_dir fs names ∅ (-1) s = Returns (rfds, max_fd) s' ->
  (forall fd, fd ∈ rfds -> 0 <= fd <= max_fd) /\
  (max_fd = -1 \/ max_fd ∈ rfds) /\
  (max_fd < 0 <-> rfds = ∅).
Proof.
  intros H.
  assert (Hstat : all_stat fs names).
  { clear - H. revert H. generalize (∅ : gset Z) (-1) s.
    induction names as [|d rest IH]; intros r m s0 H; [constructor|].
    simpl in H. constructor.
    - intros Hd E. rewrite Hd, E in H. discriminate.
    - destruct (is_dot d); [eapply IH; exact H|].
      destruct (stat_ischr fs (filename_of d)) as [[]|]; try discriminate.
      + destruct (open_event_node fs (filename_of d) r m s0) as [[r1 m1] s1].
        eapply IH; exact H.
      + eapply IH; exact H. }
  destruct (scan_dir_returns fs names ∅ (-1) s Hstat) as (s'' & Hr & _).
  rewrite Hr in H. inversion H; subst. clear H Hr.
  pose proof (opened_nonneg fs names) as Hnn.
  pose proof (foldr_max_spec (opened fs names) (-1)) as (Hle & Hm & Hin).
  rewrite Forall_forall in Hnn.
  split; [|split].
  - intros fd Hfd.
    assert (fd ∈ opened fs names) by set_solver.
    split; [apply Hnn; assumption | apply Hle; assumption].
  - destruct Hin as [-> | Hin]; [left; reflexivity | right; set_solver].
  - split.
    + intros Hneg. destruct (opened fs names) as [|x l] eqn:E; [set_solver|].
      exfalso. specialize (Hle x ltac:(left)). specialize (Hnn x ltac:(left)).
      lia.
    + intros Hempty. destruct Hin as [-> | Hin]; [lia|].
      exfalso. set_solver.
Qed.

Lemma scan_dir_max_fd_witness :
  scan_dir sample_fs ["."; ".."; "mice"; "by-path"; "event0"] ∅ (-1) armed
    = Returns ({[3]} ∪ ∅ ∪ ∅, 3)
        (state_of (scan_dir sample_fs
                     ["."; ".."; "mice"; "by-path"; "event0"] ∅ (-1) armed))
  /\ (3 = -1 \/ 3 ∈ ({[3]} ∪ ∅ ∪ ∅ : gset Z)).
Proof.
  assert (Hrun :
    scan_dir sample_fs ["."; ".."; "mice"; "by-path"; "event0"] ∅ (-1) armed
    = Returns ({[3]} ∪ ∅ ∪ ∅, 3)
        (state_of (scan_dir sample_fs
                     ["."; ".."; "mice"; "by-path"; "event0"] ∅ (-1) armed)))
    by reflexivity.
  split; [exact Hrun|].
  exact (proj1 (proj2 (scan_dir_max_fd _ _ _ _ _ _ Hrun))).
Defined.

(** X18.  The scan of the directory ends the process exactly when stat fails on
    an entry other than "." and "..": otherwise it returns. *)
Theorem scan_dir_dies_iff fs names rfds max_fd s :
  (exists s', scan_dir fs names rfds max_fd s = Dies s') <->
  ~ all_stat fs names.
Proof.
  split.
  - intros [s' H] Hstat.
    destruct (scan_dir_returns fs names rfds max_fd s Hstat) as (s'' & Hr & _).
    rewrite Hr in H. discriminate.
  - revert rfds max_fd s.
    induction names as [|d rest IH]; intros rfds max_fd s Hn.
    + exfalso. apply Hn. constructor.
    + simpl. destruct (is_dot d) eqn:Hd.
      * apply IH. intros Hrest. apply Hn. constructor; [congruence | exact Hrest].
      * destruct (stat_ischr fs (filename_of d)) as [[]|] eqn:E.
        -- destruct (open_event_node fs (filename_of d) rfds max_fd s)
             as [[r1 m1] s1].
           apply IH. intros Hrest. apply Hn.
           constructor; [congruence | exact Hrest].
        -- apply IH. intros Hrest. apply Hn.
           constructor; [congruence | exact Hrest].
        -- eexists. reflexivity.
Qed.

Lemma substring_length_le n : forall s,
  (String.length (substring 0 n s) <= n)%nat.
Proof.
  induction n as [|n IH]; intros [|c s]; simpl; try lia.
  specialize (IH s). lia.
Qed.

(** X19.  The path handed to stat and open never exceeds the 128-byte buffer: it
    has at most 127 characters, and it is "/dev/input/" followed by the whole
    entry name exactly when that name has at most 116 characters; a longer
    name is cut. *)
Theorem filename_of_bounded d_name :
  (String.length (filename_of d_name) <= 127)%nat /\
  ((String.length d_name <= 116)%nat ->
   filename_of d_name = "/dev/input/" +:+ d_name) /\
  ((116 < String.length d_name)%nat ->
   String.length (filename_of d_name) = 127%nat /\
   filename_of d_name <> "/dev/input/" +:+ d_name).
Proof.
  unfold filename_of.
  assert (Hl : String.length ("/dev/input/" +:+ d_name)
               = (11 + String.length d_name)%nat)
    by (rewrite UpdateOsipFacts.length_append; reflexivity).
  split; [apply substring_length_le|]. split.
  - intros H. apply UpdateOsipFacts.substring_whole. lia.
  - intros H.
    assert (Hlen : String.length (substring 0 127 ("/dev/input/" +:+ d_name))
                   = 127%nat) by (apply UpdateOsipFacts.substring_length; lia).
    split; [exact Hlen|]. intros E. rewrite E in Hlen. lia.
Qed.

Lemma filename_of_bounded_witness :
  filename_of "event0" = "/dev/input/event0".
Proof.
  apply (proj1 (proj2 (filename_of_bounded "event0"))). simpl. lia.
Defined.

(** **** The select loop *)

Lemma on_event_spec type code s :
  on_event type code s =
  if cancels type code then Goto_out (disable_autoboot s) else Continue s.
Proof.
  unfold on_event, cancels.
  destruct (type =? EV_KEY) eqn:Ek.
  - apply Z.eqb_eq in Ek. subst type.
    destruct (code =? KEY_DOT); reflexivity.
  - simpl. destruct ((type =? EV_ABS) || (type =? EV_REL)); reflexivity.
Qed.

Lemma scan_fds_spec indices rfds fds : forall s,
  match scan_fds indices rfds fds s with
  | Continue s' =>
      existsb (fd_cancels rfds fds) indices = false /\
      autoboot_enabled s' = autoboot_enabled s /\
      transitions s' = transitions s
  | Goto_out s' =>
      existsb (fd_cancels rfds fds) indices = true /\
      autoboot_enabled s' = 0
  end.
Proof.
  induction indices as [|i rest IH]; intros s; simpl.
  - repeat split.
  - unfold fd_cancels at 1 3.
    destruct (bool_decide (i ∈ rfds)); simpl; [|apply IH].
    destruct (fds !! i) as [[deb | type code value]|]; simpl; [| |apply IH].
    + match goal with |- context [scan_fds rest rfds fds ?s1] =>
        specialize (IH s1);
        destruct (scan_fds rest rfds fds s1); [|exact IH]
      end.
      destruct IH as (? & ? & Ht). rewrite Ht, transitions_emit. simpl.
      repeat split; try assumption. lia.
    + rewrite on_event_spec. destruct (cancels type code); simpl.
      * split; [reflexivity | apply disable_autoboot_enabled].
      * match goal with |- context [scan_fds rest rfds fds ?s1] =>
          specialize (IH s1);
          destruct (scan_fds rest rfds fds s1); [|exact IH]
        end.
        destruct IH as (? & ? & Ht). rewrite Ht, transitions_emit. simpl.
        repeat split; try assumption. lia.
Qed.

(** X20.  The select loop comes to an end exactly when, in one of the returns of
    select, a watched descriptor between 0 and max_fd is readable and the
    event read on it is a key other than KEY_DOT or an EV_REL or EV_ABS
    event: then the thread returns with the flag clear.  Otherwise it stays
    in the loop with the flag as it was and nothing logged about autoboot;
    short reads and events of other types never end it. *)
Theorem listen_result selects rfds max_fd s :
  match listen selects rfds max_fd s with
  | Returns _ s' =>
      existsb (round_cancels rfds max_fd) selects = true /\
      autoboot_enabled s' = 0
  | Blocks s' =>
      existsb (round_cancels rfds max_fd) selects = false /\
      autoboot_enabled s' = autoboot_enabled s /\
      transitions s' = transitions s
  | Dies _ | Boots _ => False
  end.
Proof.
  revert s. induction selects as [|fds later IH]; intros s; simpl.
  - repeat split.
  - match goal with |- context [scan_fds ?l rfds fds ?s1] =>
      pose proof (scan_fds_spec l rfds fds s1) as Hs;
      destruct (scan_fds l rfds fds s1) as [s2|s2]
    end.
    + destruct Hs as (Hc & He & Ht).
      fold (round_cancels rfds max_fd fds) in Hc. rewrite Hc. simpl.
      specialize (IH s2).
      destruct (listen later rfds max_fd s2); try exact IH.
      destruct IH as (? & He' & Ht'). rewrite He', Ht', He, Ht, transitions_emit.
      simpl. repeat split; try assumption. lia.
    + destruct Hs as (Hc & He).
      fold (round_cancels rfds max_fd fds) in Hc. rewrite Hc. simpl.
      split; [reflexivity | exact He].
Qed.

Lemma scan_dir_idle fs names s :
  all_stat fs names -> opened fs names = [] ->
  exists s', scan_dir fs names ∅ (-1) s = Returns (∅ ∪ ∅, -1) s' /\
             autoboot_enabled s' = autoboot_enabled s /\
             transitions s' = transitions s.
Proof.
  intros Hstat Hnone.
  destruct (scan_dir_returns fs names ∅ (-1) s Hstat) as (s' & Hr & He & Ht).
  rewrite Hnone in Hr. exists s'. repeat split; assumption.
Qed.

(** X21.  When the input directory cannot be opened, or holds no character device
    that opens, the listener thread returns at once: it never blocks, looks
    at no input, and leaves the flag as it was. *)
Theorem input_listener_thread_idle fs selects s :
  readdir fs = None \/
  (exists names, readdir fs = Some names /\ all_stat fs names /\
                 opened fs names = []) ->
  exists s',
    input_listener_thread fs selects s = Returns tt s' /\
    autoboot_enabled s' = autoboot_enabled s /\
    transitions s' = transitions s.
Proof.
  unfold input_listener_thread, exit_listener.
  intros [Hnone | (names & Hdir & Hstat & Hopen)].
  - rewrite Hnone. eexists. split; [reflexivity|].
    rewrite !transitions_emit. simpl. split; [reflexivity | lia].
  - rewrite Hdir.
    destruct (scan_dir_idle fs names
                (emit (Dprintf SPEW "begin input listener thread") s)
                Hstat Hopen) as (s1 & Hr & He & Ht).
    rewrite Hr. simpl. eexists. split; [reflexivity|].
    rewrite !transitions_emit, Ht, transitions_emit. simpl.
    split; [exact He | lia].
Qed.

Lemma input_listener_thread_idle_witness :
  exists s',
    input_listener_thread (mkInputFs None (fun _ => None) (fun _ => -1))
      [{[3 := Input_event EV_KEY KEY_A 1]}] armed = Returns tt s' /\
    autoboot_enabled s' = 1.
Proof.
  destruct (input_listener_thread_idle
              (mkInputFs None (fun _ => None) (fun _ => -1))
              [{[3 := Input_event EV_KEY KEY_A 1]}] armed)
    as (s' & Hr & He & _); [left; reflexivity|].
  exists s'. split; [exact Hr | exact He].
Defined.

(** X22.  Over any sequence of the file's operations the flag either keeps its
    value or goes to 0, and "Autoboot disabled." is logged exactly when it
    went from set to clear. *)
Theorem flag_and_log_agree os s :
  (autoboot_enabled (run_ops os s) = autoboot_enabled s /\
   transitions (run_ops os s) = transitions s) \/
  (autoboot_enabled s <> 0 /\ autoboot_enabled (run_ops os s) = 0 /\
   transitions (run_ops os s) = S (transitions s)).
Proof.
  destruct (once_run_ops os s) as [Ha Hb].
  destruct (Z.eq_dec (autoboot_enabled s) 0) as [E|E].
  - left. destruct (Ha E) as [? ?]. split; congruence.
  - destruct (Hb E) as [[? ?] | [? ?]]; [left | right]; repeat split; assumption.
Qed.

End DroidbootFacts.
